(** * Verification of the income-tax service (app.py)

    A shallow embedding of [compute_tax], [fetch_tax_data] (the
    [cachetools.cached] / [backoff.on_exception] decorated [get_data]) and the
    [calculate_tax] request handler, together with the properties stated about
    them.

    Python numbers are modelled as they are at run time: an [int] is an
    unbounded integer, a [float] is an IEEE-754 binary64 value.  Arithmetic on
    floats is "compute exactly, then round to nearest, ties to even"; the
    rounding function is written out over the rationals so that it can be both
    executed and reasoned about.

    The surroundings of the program are explicit: the module-level cache, the
    outcomes of the successive calls of [requests.get], and a trace of the
    requests sent and of the waits of the retry loop.  Logging is left out,
    the random jitter of a wait is represented by its upper bound, and a
    response body is either the table it decodes to or not JSON at all. *)

From Stdlib Require Import ZArith QArith Qround Qabs Qpower.
From Stdlib Require Import List Bool String DecimalString Lia Lqa.
From Stdlib Require Import Floats.SpecFloat.
Import ListNotations.

Local Open Scope Z_scope.

(* ===================================================================== *)
(** * Binary64 arithmetic                                                 *)
(* ===================================================================== *)

Module B64.

(** The carrier is the standard library's [spec_float]: signed zeros,
    infinities, one NaN, and finite numbers [(-1)^s * m * 2^e]. *)

Definition float := spec_float.

Definition pow2 (e : Z) : Q := Qpower (2 # 1) e.

(** Exact rational value of a finite float (0 for the others). *)
Definition F2Q (x : float) : Q :=
  match x with
  | S754_finite s m e => inject_Z (cond_Zopp s (Zpos m)) * pow2 e
  | _ => 0%Q
  end.

(** [ilog2 q] is the integer part of the base-2 logarithm of [q > 0]. *)
Definition ilog2 (q : Q) : Z :=
  let k := Z.log2 (Qnum q) - Z.log2 (Zpos (Qden q)) in
  if Qle_bool (pow2 k) q then k else k - 1.

(** Exponent of the binary64 grid around [q > 0]: 53 significant bits, with
    the subnormal floor at 2^-1074. *)
Definition fexp64 (q : Q) : Z := Z.max (ilog2 q - 52) (-1074).

(** Round a rational to the nearest integer, ties to even. *)
Definition rne (q : Q) : Z :=
  let f := Qfloor q in
  match Qcompare (q - inject_Z f) (1 # 2) with
  | Lt => f
  | Gt => f + 1
  | Eq => if Z.even f then f else f + 1
  end.

(** Mantissa and exponent of the binary64 number nearest to [q > 0]
    (exponent not yet range-checked). *)
Definition round_mag (q : Q) : Z * Z :=
  let e := fexp64 q in
  let m := rne (q / pow2 e) in
  if m =? 2 ^ 53 then (2 ^ 52, e + 1) else (m, e).

Definition mag_value (me : Z * Z) : Q :=
  inject_Z (fst me) * pow2 (snd me).

Definition round_pos (s : bool) (q : Q) : float :=
  let '(m, e) := round_mag q in
  match m with
  | Zpos p => if e <=? 971 then S754_finite s p e else S754_infinity s
  | _ => S754_zero s
  end.

(** Correct rounding of an arbitrary rational, overflow to infinity,
    underflow to a zero of the same sign. *)
Definition rnd (q : Q) : float :=
  match Qcompare q 0 with
  | Eq => S754_zero false
  | Gt => round_pos false q
  | Lt => round_pos true (- q)
  end.

Definition sign_of (x : float) : bool :=
  match x with
  | S754_zero s | S754_infinity s | S754_finite s _ _ => s
  | S754_nan => false
  end.

Definition is_zero (x : float) : bool :=
  match x with S754_zero _ => true | _ => false end.

Definition opp (x : float) : float := SFopp x.

Definition add (x y : float) : float :=
  match x, y with
  | S754_nan, _ | _, S754_nan => S754_nan
  | S754_infinity sx, S754_infinity sy =>
      if Bool.eqb sx sy then x else S754_nan
  | S754_infinity _, _ => x
  | _, S754_infinity _ => y
  | _, _ =>
      let q := (F2Q x + F2Q y)%Q in
      match Qcompare q 0 with
      | Eq => S754_zero (sign_of x && sign_of y)
      | _ => rnd q
      end
  end.

Definition sub (x y : float) : float := add x (opp y).

Definition mul (x y : float) : float :=
  match x, y with
  | S754_nan, _ | _, S754_nan => S754_nan
  | S754_infinity _, S754_zero _ | S754_zero _, S754_infinity _ => S754_nan
  | S754_infinity sx, _ => S754_infinity (xorb sx (sign_of y))
  | _, S754_infinity sy => S754_infinity (xorb (sign_of x) sy)
  | S754_zero sx, _ => S754_zero (xorb sx (sign_of y))
  | _, S754_zero sy => S754_zero (xorb (sign_of x) sy)
  | S754_finite sx _ _, S754_finite sy _ _ =>
      round_pos (xorb sx sy) (Qabs (F2Q x) * Qabs (F2Q y))
  end.

Definition div (x y : float) : float :=
  match x, y with
  | S754_nan, _ | _, S754_nan => S754_nan
  | S754_infinity _, S754_infinity _ | S754_zero _, S754_zero _ => S754_nan
  | S754_infinity sx, _ => S754_infinity (xorb sx (sign_of y))
  | _, S754_infinity sy => S754_zero (xorb (sign_of x) sy)
  | S754_zero sx, _ => S754_zero (xorb sx (sign_of y))
  | _, S754_zero sy => S754_infinity (xorb (sign_of x) sy)
  | S754_finite sx _ _, S754_finite sy _ _ =>
      round_pos (xorb sx sy) (Qabs (F2Q x) / Qabs (F2Q y))
  end.

(** A finite binary64 number: a zero, or a mantissa and an exponent within
    the format's bounds. *)
Definition finite_float (x : float) : bool :=
  match x with
  | S754_zero _ => true
  | S754_finite _ m e => bounded 53 1024 m e
  | _ => false
  end.

(** Non-negative results of a rounding: a zero, plus infinity, or a positive
    number with at most 53 significant bits above the subnormal floor. *)
Definition nonneg_grid (x : float) : Prop :=
  match x with
  | S754_zero _ => True
  | S754_infinity s => s = false
  | S754_nan => False
  | S754_finite s m e => s = false /\ Zpos m < 2 ^ 53 /\ -1074 <= e
  end.

(** The float denoted by the decimal literal [n * 10^-k] (what [float("...")]
    and the JSON decoder return). *)
Definition dec (n : Z) (k : nat) : float :=
  rnd (inject_Z n / inject_Z (10 ^ Z.of_nat k)).

(** [round(x, 2)] on a float, as CPython computes it: the exact binary value
    is rounded to two decimals (ties to even, [_Py_dg_dtoa] mode 3) and the
    resulting decimal string is converted back to the nearest float
    ([_Py_dg_strtod]).  NaN, infinities and zeros are returned unchanged. *)
Definition round2 (x : float) : float :=
  match x with
  | S754_finite s _ _ =>
      let n := rne (Qabs (F2Q x) * (100 # 1)) in
      if n =? 0 then S754_zero s
      else round_pos s (inject_Z n / (100 # 1))
  | _ => x
  end.

End B64.

(* ===================================================================== *)
(** * Values of Python numbers and their comparisons                      *)
(* ===================================================================== *)

(** The mathematical value of a number: a rational, an infinity, or NaN. *)
Inductive xval :=
  | XNaN
  | XNegInf
  | XFin (q : Q)
  | XPosInf.

Definition xval_ltb (x y : xval) : bool :=
  match x, y with
  | XNaN, _ | _, XNaN => false
  | _, XNegInf => false
  | XNegInf, _ => true
  | XPosInf, _ => false
  | _, XPosInf => true
  | XFin a, XFin b => negb (Qle_bool b a)
  end.

Definition xval_leb (x y : xval) : bool :=
  match x, y with
  | XNaN, _ | _, XNaN => false
  | XNegInf, _ => true
  | _, XNegInf => false
  | _, XPosInf => true
  | XPosInf, _ => false
  | XFin a, XFin b => Qle_bool a b
  end.

Definition xval_eqb (x y : xval) : bool :=
  match x, y with
  | XNegInf, XNegInf | XPosInf, XPosInf => true
  | XFin a, XFin b => Qeq_bool a b
  | _, _ => false
  end.

Definition float_val (x : B64.float) : xval :=
  match x with
  | S754_nan => XNaN
  | S754_infinity s => if s then XNegInf else XPosInf
  | _ => XFin (B64.F2Q x)
  end.

(** Order of floats by value, and "is a number that is not negative". *)
Notation "x <=f y" := (xval_leb (float_val x) (float_val y) = true)
  (at level 70, no associativity).

Definition nonneg (x : B64.float) : Prop :=
  xval_leb (XFin 0) (float_val x) = true.

Definition is_finite (x : B64.float) : bool :=
  match x with
  | S754_zero _ | S754_finite _ _ _ => true
  | _ => false
  end.

(** A Python number as [json] decoding and [float()] produce them. *)
Inductive pynum :=
  | PyInt (z : Z)
  | PyFloat (f : B64.float).

Definition val (x : pynum) : xval :=
  match x with
  | PyInt z => XFin (inject_Z z)
  | PyFloat f => float_val f
  end.

(** Python compares an [int] with a [float] by exact value, so all four
    combinations are comparisons of values. *)
Definition py_lt (a b : pynum) : bool := xval_ltb (val a) (val b).
Definition py_gt (a b : pynum) : bool := py_lt b a.
Definition py_le (a b : pynum) : bool := xval_leb (val a) (val b).
Definition py_eq (a b : pynum) : bool := xval_eqb (val a) (val b).

(** The builtin [min(a, b)]: [b] replaces [a] only when [b < a]. *)
Definition py_min (a b : pynum) : pynum := if py_lt b a then b else a.

(** Truthiness of a number: everything except zero (NaN is truthy). *)
Definition truthy (x : pynum) : bool :=
  match x with
  | PyInt z => negb (z =? 0)
  | PyFloat f => negb (B64.is_zero f)
  end.

(* ===================================================================== *)
(** * Exceptions and the error monad                                      *)
(* ===================================================================== *)

(** The exceptions the program can meet.  The last four are of the
    [requests.exceptions.RequestException] family.  [HTTPError] is raised by
    [raise_for_status] and carries the status code of its response.
    [ConnectionError] and [Timeout] are raised by [requests.get] itself and
    carry no response.  [JSONDecodeError] is what [response.json()] raises
    (requests 2.27 and later) on a body that is not JSON; it is built without
    a response, so that its [response] attribute is [None]. *)
Inductive exn :=
  | OverflowError
  | ZeroDivisionError
  | ConnectionError
  | Timeout
  | HTTPError (status_code : Z)
  | JSONDecodeError.

Definition result (A : Type) : Type := (exn + A)%type.

Definition ret {A} (a : A) : result A := inr a.
Definition raise {A} (e : exn) : result A := inl e.
Definition bind {A B} (m : result A) (k : A -> result B) : result B :=
  match m with
  | inl e => inl e
  | inr a => k a
  end.

Notation "x <- m ;; k" := (bind m (fun x => k))
  (at level 61, m at next level, right associativity).

(* ===================================================================== *)
(** * Arithmetic on Python numbers                                        *)
(* ===================================================================== *)

(** [float(z)] for an [int]: correctly rounded, [OverflowError] when the
    rounded magnitude exceeds the largest float. *)
Definition to_float (z : Z) : result B64.float :=
  match B64.rnd (inject_Z z) with
  | S754_infinity _ => raise OverflowError
  | f => ret f
  end.

Definition as_float (x : pynum) : result B64.float :=
  match x with
  | PyInt z => to_float z
  | PyFloat f => ret f
  end.

Definition float_op (op : B64.float -> B64.float -> B64.float)
    (a b : pynum) : result pynum :=
  x <- as_float a ;;
  y <- as_float b ;;
  ret (PyFloat (op x y)).

Definition py_add (a b : pynum) : result pynum :=
  match a, b with
  | PyInt x, PyInt y => ret (PyInt (x + y))
  | _, _ => float_op B64.add a b
  end.

Definition py_sub (a b : pynum) : result pynum :=
  match a, b with
  | PyInt x, PyInt y => ret (PyInt (x - y))
  | _, _ => float_op B64.sub a b
  end.

Definition py_mul (a b : pynum) : result pynum :=
  match a, b with
  | PyInt x, PyInt y => ret (PyInt (x * y))
  | _, _ => float_op B64.mul a b
  end.

(** True division [a / b]. *)
Definition py_truediv (a b : pynum) : result pynum :=
  match a, b with
  | PyInt x, PyInt y =>
      if y =? 0 then raise ZeroDivisionError
      else if x =? 0 then ret (PyFloat (S754_zero (y <? 0)))
      else
        match B64.round_pos (xorb (x <? 0) (y <? 0))
                (inject_Z (Z.abs x) / inject_Z (Z.abs y)) with
        | S754_infinity _ => raise OverflowError
        | f => ret (PyFloat f)
        end
  | _, _ =>
      x <- as_float a ;;
      y <- as_float b ;;
      if B64.is_zero y then raise ZeroDivisionError
      else ret (PyFloat (B64.div x y))
  end.

(** [round(x, 2)]: an [int] is returned as it is. *)
Definition py_round2 (x : pynum) : pynum :=
  match x with
  | PyInt z => PyInt z
  | PyFloat f => PyFloat (B64.round2 f)
  end.

(* ===================================================================== *)
(** * compute_tax                                                         *)
(* ===================================================================== *)

(** One element of [tax_data['tax_brackets']], its entries being JSON
    numbers; [br_max = None] is a dict without the key ['max']. *)
Record bracket := {
  br_min : pynum;
  br_max : option pynum;
  br_rate : pynum
}.

(** One element of [tax_details]. *)
Record detail := {
  d_min : pynum;
  d_max : option pynum;
  d_tax_paid : pynum
}.

Record tax_data := { tax_brackets : list bracket }.

(** The body of [for bracket in brackets], acting on the two loop variables
    [total_tax] and [tax_details]. *)
Definition bracket_step (income : pynum) (st : pynum * list detail)
    (b : bracket) : result (pynum * list detail) :=
  let '(total_tax, tax_details) := st in
  match br_max b with
  | Some mx =>
      if py_gt income (br_min b) then
        taxable_income <- py_sub (py_min income mx) (br_min b) ;;
        tax <- py_mul taxable_income (br_rate b) ;;
        total_tax <- py_add total_tax tax ;;
        let tax := py_round2 tax in
        ret (total_tax,
             tax_details ++ [{| d_min := br_min b; d_max := Some mx;
                                d_tax_paid := tax |}])
      else ret st
  | None =>
      if py_gt income (br_min b) then
        taxable_income <- py_sub income (br_min b) ;;
        tax <- py_mul taxable_income (br_rate b) ;;
        total_tax <- py_add total_tax tax ;;
        let tax := py_round2 tax in
        ret (total_tax,
             tax_details ++ [{| d_min := br_min b; d_max := None;
                                d_tax_paid := py_round2 tax |}])
      else ret st
  end.

Fixpoint bracket_loop (income : pynum) (brackets : list bracket)
    (st : pynum * list detail) : result (pynum * list detail) :=
  match brackets with
  | [] => ret st
  | b :: rest =>
      st' <- bracket_step income st b ;;
      bracket_loop income rest st'
  end.

Definition effective_rate_of (total_tax income : pynum) : result pynum :=
  if py_gt income (PyInt 0) then
    r <- py_truediv total_tax income ;;
    p <- py_mul r (PyInt 100) ;;
    ret (py_round2 p)
  else ret (PyInt 0).

(** Returns [(total_tax, tax_details, effective_rate)]. *)
Definition compute_tax (income : pynum) (data : tax_data)
    : result (pynum * list detail * pynum) :=
  let total_tax := PyInt 0 in
  let tax_details := [] in
  let brackets := tax_brackets data in
  st <- bracket_loop income brackets (total_tax, tax_details) ;;
  let '(total_tax, tax_details) := st in
  effective_rate <- effective_rate_of total_tax income ;;
  let total_tax := py_round2 total_tax in
  ret (total_tax, tax_details, effective_rate).

(** The bracket table used by the repository's tests. *)
Definition test_brackets : tax_data :=
  {| tax_brackets :=
       [ {| br_min := PyInt 0; br_max := Some (PyInt 50197);
            br_rate := PyFloat (B64.dec 15 2) |};
         {| br_min := PyInt 50197; br_max := None;
            br_rate := PyFloat (B64.dec 2 1) |} ] |}.

(* ===================================================================== *)
(** * Configuration, upstream service, cache                              *)
(* ===================================================================== *)

(** The contents of [config.json]. *)
Record config := {
  cache_max_size : Z;
  supported_tax_years : list Z;
  tax_api_url : string;
  tax_api_max_retries : Z
}.

(** What the upstream service sends back; [json] is the decoded body. *)
Record response := {
  status_code : Z;
  json : tax_data
}.

(** The outcome of one [requests.get(url)]: the connection fails, it times
    out, a response comes back whose body decodes to [json], or a response
    comes back, with some status code, whose body is not JSON. *)
Inductive upstream :=
  | GetConnectionError
  | GetTimeout
  | GetReturns (r : response)
  | GetReturnsNotJSON (status_code : Z).

(** Observable effects of a fetch: the requests sent, and the waits between
    two attempts ([bound] is the value of the [backoff.expo] generator, the
    upper end of the jittered sleep). *)
Inductive event :=
  | EvGet (url : string)
  | EvSleep (bound : Z).

(** The [LRUCache] keeps its entries from least to most recently used. *)
Definition lru := list (Z * tax_data).

(** The mutable surroundings of the handler: the module-level [cache], the
    behaviour of the upstream service at its next calls, and what has been
    observed so far. *)
Record world := {
  cache : lru;
  script : list upstream;
  trace : list event
}.

Definition lru_lookup (k : Z) (c : lru) : option tax_data :=
  option_map snd (find (fun p => fst p =? k) c).

Definition lru_remove (k : Z) (c : lru) : lru :=
  filter (fun p => negb (fst p =? k)) c.

(** [cache[k]]: [None] stands for [KeyError]; a hit makes [k] the most
    recently used key. *)
Definition lru_getitem (k : Z) (c : lru) : option (tax_data * lru) :=
  match lru_lookup k c with
  | Some v => Some (v, lru_remove k c ++ [(k, v)])
  | None => None
  end.

(** [cache[k] = v]: [None] stands for [ValueError] (an item is larger than
    the whole cache); otherwise least recently used entries are popped until
    the new item fits. *)
Definition lru_setitem (maxsize : Z) (k : Z) (v : tax_data) (c : lru)
    : option lru :=
  if maxsize <? 1 then None
  else
    let c :=
      match lru_lookup k c with
      | Some _ => c
      | None => skipn (Z.to_nat (Z.of_nat (List.length c) + 1 - maxsize)) c
      end in
    Some (lru_remove k c ++ [(k, v)]).

(* ===================================================================== *)
(** * fetch_tax_data                                                      *)
(* ===================================================================== *)

Definition str (z : Z) : string := NilZero.string_of_int (Z.to_int z).

Definition url_of (cfg : config) (tax_year : Z) : string :=
  (tax_api_url cfg ++ "/" ++ str tax_year)%string.

(** [response.raise_for_status()] *)
Definition raise_for_status (r : response) : result unit :=
  if (400 <=? status_code r) && (status_code r <? 600)
  then raise (HTTPError (status_code r))
  else ret tt.

(** The undecorated body of [get_data], given what [requests.get] does:
    [raise_for_status] looks at the status code only, and comes before
    [response.json()], which fails on a body that is not JSON. *)
Definition get_data (u : upstream) : result tax_data :=
  match u with
  | GetConnectionError => raise ConnectionError
  | GetTimeout => raise Timeout
  | GetReturns response =>
      _ <- raise_for_status response ;;
      ret (json response)
  | GetReturnsNotJSON status =>
      if (400 <=? status) && (status <? 600)
      then raise (HTTPError status)
      else raise JSONDecodeError
  end.

(** The exception tuple handed to [backoff.on_exception]. *)
Definition is_request_exception (e : exn) : bool :=
  match e with
  | ConnectionError | Timeout | HTTPError _ | JSONDecodeError => true
  | _ => false
  end.

(** [e.response], as the status code of the response when there is one. *)
Definition exn_response (e : exn) : option Z :=
  match e with
  | HTTPError status => Some status
  | _ => None
  end.

(** [giveup=lambda e: e.response is not None and e.response.status_code < 500] *)
Definition giveup (e : exn) : bool :=
  match exn_response e with
  | Some status => status <? 500
  | None => false
  end.

(** Value of [backoff.expo] before the [n]-th retry. *)
Definition expo (n : nat) : Z := 2 ^ Z.of_nat n.

(** The retry loop of [backoff.on_exception] around [get_data].  [tries]
    counts the attempts already made.  The loop consumes one scripted
    upstream outcome per attempt; [None] means that the script does not say
    what the next attempt would meet. *)
Fixpoint on_exception (cfg : config) (tax_year : Z) (tries : nat)
    (sc : list upstream) (tr : list event)
    : option (result tax_data * list upstream * list event) :=
  match sc with
  | [] => None
  | u :: sc' =>
      let tries := S tries in
      let tr := tr ++ [EvGet (url_of cfg tax_year)] in
      match get_data u with
      | inr v => Some (inr v, sc', tr)
      | inl e =>
          if is_request_exception e then
            if giveup e || (Z.of_nat tries =? tax_api_max_retries cfg)
            then Some (inl e, sc', tr)
            else on_exception cfg tax_year tries sc'
                   (tr ++ [EvSleep (expo (pred tries))])
          else Some (inl e, sc', tr)
      end
  end.

(** [cachetools.cached(cache)] around the retrying [get_data], which is all
    that [fetch_tax_data] does besides logging and re-raising. *)
Definition fetch_tax_data (cfg : config) (tax_year : Z) (w : world)
    : option (result tax_data * world) :=
  match lru_getitem tax_year (cache w) with
  | Some (v, c) =>
      Some (inr v, {| cache := c; script := script w; trace := trace w |})
  | None =>
      match on_exception cfg tax_year 0 (script w) (trace w) with
      | None => None
      | Some (inl e, sc, tr) =>
          Some (inl e, {| cache := cache w; script := sc; trace := tr |})
      | Some (inr v, sc, tr) =>
          let c :=
            match lru_setitem (cache_max_size cfg) tax_year v (cache w) with
            | Some c => c
            | None => cache w
            end in
          Some (inr v, {| cache := c; script := sc; trace := tr |})
      end
  end.

(* ===================================================================== *)
(** * calculate_tax                                                       *)
(* ===================================================================== *)

Inductive body :=
  | ErrorBody (error : string)
  | TaxBody (total_tax : pynum) (tax_details : list detail)
            (effective_rate : pynum).

Record http_response := {
  status : Z;
  payload : body
}.

(** Truthiness of what [request.args.get(..., type=...)] returns: [None]
    (absent or not convertible) is falsy, and so is a zero. *)
Definition truthy_arg (x : option pynum) : bool :=
  match x with
  | Some v => truthy v
  | None => false
  end.

Definition missing_parameters : http_response :=
  {| status := 400; payload := ErrorBody "Missing required parameters" |}.

Definition unsupported_year (cfg : config) : http_response :=
  {| status := 400;
     payload := ErrorBody
       ("Unsupported tax year. Supported years are: " ++
        String.concat ", " (map str (supported_tax_years cfg))) |}.

Definition internal_server_error : http_response :=
  {| status := 500; payload := ErrorBody "Internal Server Error" |}.

(** The handler.  [annual_income] and [tax_year] are the two values obtained
    from the query string. *)
Definition calculate_tax (cfg : config) (annual_income : option B64.float)
    (tax_year : option Z) (w : world) : option (http_response * world) :=
  if negb (truthy_arg (option_map PyFloat annual_income) &&
           truthy_arg (option_map PyInt tax_year))
  then Some (missing_parameters, w)
  else
    match annual_income, tax_year with
    | Some annual_income, Some tax_year =>
        if negb (existsb (Z.eqb tax_year) (supported_tax_years cfg))
        then Some (unsupported_year cfg, w)
        else
          match fetch_tax_data cfg tax_year w with
          | None => None
          | Some (inl _, w') => Some (internal_server_error, w')
          | Some (inr data, w') =>
              match compute_tax (PyFloat annual_income) data with
              | inr (total_tax, tax_details, effective_rate) =>
                  Some ({| status := 200;
                           payload := TaxBody total_tax tax_details
                                        effective_rate |}, w')
              | inl _ => Some (internal_server_error, w')
              end
          end
    | _, _ => Some (missing_parameters, w)
    end.

(* ===================================================================== *)
(** * Vocabulary of the properties                                        *)
(* ===================================================================== *)

(** A bracket is entered when the income exceeds its lower bound. *)
Definition contributes (income : pynum) (b : bracket) : bool :=
  py_gt income (br_min b).

(** The part of the income that falls into a bracket. *)
Definition taxable_slice (income : pynum) (b : bracket) : result pynum :=
  match br_max b with
  | Some mx => py_sub (py_min income mx) (br_min b)
  | None => py_sub income (br_min b)
  end.

(** The tax of a bracket before any rounding. *)
Definition unrounded_tax (income : pynum) (b : bracket) : result pynum :=
  slice <- taxable_slice income b ;;
  py_mul slice (br_rate b).

(** Sum, in bracket order and starting from [acc], of the unrounded taxes of
    the brackets that are entered. *)
Fixpoint sum_unrounded (income : pynum) (brackets : list bracket)
    (acc : pynum) : result pynum :=
  match brackets with
  | [] => ret acc
  | b :: rest =>
      if contributes income b then
        tax <- unrounded_tax income b ;;
        acc' <- py_add acc tax ;;
        sum_unrounded income rest acc'
      else sum_unrounded income rest acc
  end.

(** The breakdown entry [d] is the one recorded for bracket [b]. *)
Definition detail_for (income : pynum) (b : bracket) (d : detail) : Prop :=
  d_min d = br_min b /\
  d_max d = br_max b /\
  exists tax,
    unrounded_tax income b = inr tax /\
    d_tax_paid d =
      match br_max b with
      | Some _ => py_round2 tax
      | None => py_round2 (py_round2 tax)
      end.

Definition total_of (r : result (pynum * list detail * pynum))
    : result pynum :=
  x <- r ;; ret (fst (fst x)).

(** A finite number that [float()] takes without rounding: a finite float,
    or an [int] of magnitude below 2^53. *)
Definition float_exact (x : pynum) : bool :=
  match x with
  | PyInt z => Z.abs z <? 2 ^ 53
  | PyFloat f => is_finite f
  end.

(** The rational value of a finite number. *)
Definition Qof (x : pynum) : Q :=
  match x with
  | PyInt z => inject_Z z
  | PyFloat f => B64.F2Q f
  end.

(** A bracket as tax tables have them: finite bounds with [0 <= min <= max],
    integers small enough to be floats, and a rate that is a finite float
    and not negative. *)
Definition plausible_bracket (b : bracket) : bool :=
  float_exact (br_min b) && py_le (PyInt 0) (br_min b) &&
  match br_max b with
  | Some mx => float_exact mx && py_le (br_min b) mx
  | None => true
  end &&
  match br_rate b with
  | PyFloat r => is_finite r && py_le (PyInt 0) (PyFloat r)
  | PyInt _ => false
  end.

(** The number from which the lower bound of a bracket is subtracted. *)
Definition slice_top (income : pynum) (b : bracket) : pynum :=
  match br_max b with
  | Some mx => py_min income mx
  | None => income
  end.

(** The running total and the float it stands for in an addition. *)
Definition total_view (total : pynum) (f : B64.float) : Prop :=
  ((total = PyInt 0 /\ f = S754_zero false) \/ total = PyFloat f) /\
  B64.nonneg_grid f.

(** Failures expected to go away on a new attempt: a network error, a
    timeout, or a response with a server-side status. *)
Definition transient (e : exn) : bool :=
  match e with
  | ConnectionError | Timeout => true
  | HTTPError status => 500 <=? status
  | _ => false
  end.

(** The attempt meeting [u] fails, and transiently so. *)
Definition fails_transiently (u : upstream) : bool :=
  match get_data u with
  | inl e => transient e
  | inr _ => false
  end.

(** ** Data of the examples *)

Definition example_config : config :=
  {| cache_max_size := 100;
     supported_tax_years := [2019; 2020; 2021; 2022];
     tax_api_url := "http://localhost:5001/tax-calculator/tax-year";
     tax_api_max_retries := 3 |}.

Definition ok_response (d : tax_data) : response :=
  {| status_code := 200; json := d |}.

Definition failing_response (code : Z) : response :=
  {| status_code := code; json := {| tax_brackets := [] |} |}.

Definition fresh_world (sc : list upstream) : world :=
  {| cache := []; script := sc; trace := [] |}.

(** A bracket table, ascending and without overlap, whose first bracket
    starts below zero. *)
Definition negative_min_brackets : tax_data :=
  {| tax_brackets :=
       [ {| br_min := PyInt (-1000); br_max := Some (PyInt 50197);
            br_rate := PyFloat (B64.dec 15 2) |};
         {| br_min := PyInt 50197; br_max := None;
            br_rate := PyFloat (B64.dec 2 1) |} ] |}.

(** A bracket table with a tax-free first band. *)
Definition zero_rate_brackets : tax_data :=
  {| tax_brackets :=
       [ {| br_min := PyInt 0; br_max := Some (PyInt 10000);
            br_rate := PyFloat (B64.dec 0 0) |};
         {| br_min := PyInt 10000; br_max := None;
            br_rate := PyFloat (B64.dec 2 1) |} ] |}.

(** Two bands with rates of 5.05% and 9.15%. *)
Definition two_band_brackets : tax_data :=
  {| tax_brackets :=
       [ {| br_min := PyInt 0; br_max := Some (PyInt 46226);
            br_rate := PyFloat (B64.dec 505 4) |};
         {| br_min := PyInt 46226; br_max := None;
            br_rate := PyFloat (B64.dec 915 4) |} ] |}.

(** A single open-ended bracket with a negative rate. *)
Definition negative_rate_brackets : tax_data :=
  {| tax_brackets :=
       [ {| br_min := PyInt 0; br_max := None;
            br_rate := PyFloat (B64.dec (-1) 1) |} ] |}.

(** A bracket whose integer bounds lie just above 2^53, where not every
    integer is a float. *)
Definition huge_bound_brackets : tax_data :=
  {| tax_brackets :=
       [ {| br_min := PyInt 9007199254740993;
            br_max := Some (PyInt 9007199254740994);
            br_rate := PyFloat (B64.dec 15 2) |} ] |}.

(** A bracket whose upper bound is below its lower bound. *)
Definition inverted_brackets : tax_data :=
  {| tax_brackets :=
       [ {| br_min := PyInt 10; br_max := Some (PyInt 5);
            br_rate := PyFloat (B64.dec 1 1) |} ] |}.

(** A table whose first rate is the integer 3, all bounds below 2^53. *)
Definition integer_rate_brackets : tax_data :=
  {| tax_brackets :=
       [ {| br_min := PyInt 0; br_max := Some (PyInt 3002399751580331);
            br_rate := PyInt 3 |};
         {| br_min := PyInt 3002399751580333; br_max := None;
            br_rate := PyFloat (B64.dec 1 1) |} ] |}.

(** A table whose open-ended top bracket is tax-free. *)
Definition zero_top_rate_brackets : tax_data :=
  {| tax_brackets :=
       [ {| br_min := PyInt 0; br_max := Some (PyInt 10);
            br_rate := PyFloat (B64.dec 1 1) |};
         {| br_min := PyInt 10; br_max := None;
            br_rate := PyFloat (B64.dec 0 0) |} ] |}.

(** The single bracket served on the second attempt in the repository's
    recovery test. *)
Definition single_bracket : tax_data :=
  {| tax_brackets :=
       [ {| br_min := PyInt 0; br_max := Some (PyInt 50197);
            br_rate := PyFloat (B64.dec 15 2) |} ] |}.

(* ===================================================================== *)
(** * Vocabulary of the further properties                                *)
(* ===================================================================== *)

(** What a run of [n] failed attempts followed by a wait leaves in the
    trace, the first of them being attempt number [start + 1]. *)
Fixpoint backoff_trace (url : string) (start n : nat) : list event :=
  match n with
  | O => []
  | S n' =>
      EvGet url :: EvSleep (expo start) :: backoff_trace url (S start) n'
  end.

(** Number of requests sent, as recorded in a trace. *)
Definition requests_sent (tr : list event) : nat :=
  List.length
    (filter (fun ev => match ev with EvGet _ => true | _ => false end) tr).

(** All three entries of the bracket are floats. *)
Definition float_bracket (b : bracket) : bool :=
  match br_min b, br_rate b with
  | PyFloat _, PyFloat _ =>
      match br_max b with
      | Some (PyInt _) => false
      | _ => true
      end
  | _, _ => false
  end.

(** The keys of the cache, from least to most recently used. *)
Definition lru_keys (c : lru) : list Z := map fst c.

(** A bracket whose rate is an integer too large for a float. *)
Definition overflowing_brackets : tax_data :=
  {| tax_brackets :=
       [ {| br_min := PyInt 0; br_max := None;
            br_rate := PyInt (10 ^ 400) |} ] |}.


(* ===================================================================== *)
(** * Facts about binary64 rounding                                       *)
(* ===================================================================== *)

(** The operations agree with the standard library's specification of
    IEEE-754 arithmetic on the operands of the test scenario. *)
Example mul_agrees_with_SFmul :
  B64.mul (B64.dec 50197 0) (B64.dec 15 2) =
  SFmul 53 1024 (B64.dec 50197 0) (B64.dec 15 2).
Proof. vm_compute. reflexivity. Qed.

Example sub_agrees_with_SFsub :
  B64.sub (B64.dec 145000 0) (B64.dec 50197 0) =
  SFsub 53 1024 (B64.dec 145000 0) (B64.dec 50197 0).
Proof. vm_compute. reflexivity. Qed.

Example add_agrees_with_SFadd :
  B64.add (B64.dec 752955 2) (B64.dec 189606 1) =
  SFadd 53 1024 (B64.dec 752955 2) (B64.dec 189606 1).
Proof. vm_compute. reflexivity. Qed.

Example div_agrees_with_SFdiv :
  B64.div (B64.dec 2649015 2) (B64.dec 145000 0) =
  SFdiv 53 1024 (B64.dec 2649015 2) (B64.dec 145000 0).
Proof. vm_compute. reflexivity. Qed.

Example dec_is_valid_binary64 :
  map (valid_binary 53 1024)
    [B64.dec 15 2; B64.dec 2 1; B64.dec 2649015 2; B64.dec 1827 2] =
  [true; true; true; true].
Proof. vm_compute. reflexivity. Qed.

(** [round(x, 2)] on the halfway cases of the Python documentation:
    [round(2.675, 2)] is 2.67 because the float nearest to 2.675 lies below
    it, and [round(0.125, 2)] is 0.12 by the ties-to-even rule. *)
Example round2_documented_cases :
  B64.round2 (B64.dec 2675 3) = B64.dec 267 2 /\
  B64.round2 (B64.dec 125 3) = B64.dec 12 2.
Proof. vm_compute. split; reflexivity. Qed.

Section Rounding.

Local Open Scope Q_scope.

Lemma pow2_pos e : 0 < B64.pow2 e.
Proof. apply Qpower_0_lt. reflexivity. Qed.

Lemma pow2_add a b : B64.pow2 (a + b) == B64.pow2 a * B64.pow2 b.
Proof. apply Qpower_plus. discriminate. Qed.

Lemma pow2_le a b : (a <= b)%Z -> B64.pow2 a <= B64.pow2 b.
Proof. intros H. apply Qpower_le_compat_l; [exact H|discriminate]. Qed.

Lemma pow2_lt a b : (a < b)%Z -> B64.pow2 a < B64.pow2 b.
Proof. intros H. apply Qpower_lt_compat_l; [exact H|reflexivity]. Qed.

Lemma pow2_lt_inv a b : B64.pow2 a < B64.pow2 b -> (a < b)%Z.
Proof. intros H. eapply Qpower_lt_compat_l_inv; [exact H|reflexivity]. Qed.

Lemma pow2_Z n : (0 <= n)%Z -> B64.pow2 n == inject_Z (2 ^ n).
Proof. intros H. symmetry. apply (Zpower_Qpower 2 n H). Qed.

Lemma pow2_succ a : B64.pow2 (a + 1) == 2 * B64.pow2 a.
Proof. rewrite pow2_add. change (B64.pow2 1) with (2 # 1). ring. Qed.

Lemma div_pow2 q e : q / B64.pow2 e == q * B64.pow2 (- e).
Proof.
  unfold Qdiv. apply Qmult_comp; [reflexivity|].
  unfold B64.pow2. rewrite Qpower_opp. reflexivity.
Qed.

Lemma pow2_cancel e : B64.pow2 e * B64.pow2 (- e) == 1.
Proof.
  rewrite <- pow2_add. replace (e + - e)%Z with 0%Z by lia. reflexivity.
Qed.

Lemma mul_div_pow2 q e : q / B64.pow2 e * B64.pow2 e == q.
Proof.
  field. pose proof (pow2_pos e). lra.
Qed.

Lemma div_pow2_le q1 q2 e : q1 <= q2 -> q1 / B64.pow2 e <= q2 / B64.pow2 e.
Proof.
  intros H. rewrite !div_pow2. apply Qmult_le_compat_r; [exact H|].
  apply Qlt_le_weak, pow2_pos.
Qed.

Lemma div_pow2_lt_pow2 q e k :
  q < B64.pow2 (e + k) -> q / B64.pow2 e < B64.pow2 k.
Proof.
  intros H. apply Qlt_shift_div_r; [apply pow2_pos|].
  rewrite Z.add_comm, pow2_add in H. exact H.
Qed.

Lemma div_pow2_ge_pow2 q e k :
  B64.pow2 (e + k) <= q -> B64.pow2 k <= q / B64.pow2 e.
Proof.
  intros H. apply Qle_shift_div_l; [apply pow2_pos|].
  rewrite Z.add_comm, pow2_add in H. exact H.
Qed.

Lemma Qmake_mul_den a b : (a # b) * inject_Z (Zpos b) == inject_Z a.
Proof.
  rewrite (Qmake_Qdiv a b). field.
  intros H. discriminate H.
Qed.

Lemma inject_Z_log2_bounds a :
  (0 < a)%Z ->
  B64.pow2 (Z.log2 a) <= inject_Z a /\ inject_Z a < B64.pow2 (Z.log2 a + 1).
Proof.
  intros Ha. destruct (Z.log2_spec a Ha) as [Hlo Hhi].
  pose proof (Z.log2_nonneg a) as Hnn.
  rewrite !pow2_Z by lia. rewrite <- Zle_Qle, <- Zlt_Qlt.
  split; [exact Hlo|]. now rewrite Z.add_1_r.
Qed.

Lemma ilog2_spec q :
  0 < q -> B64.pow2 (B64.ilog2 q) <= q /\ q < B64.pow2 (B64.ilog2 q + 1).
Proof.
  intros Hq. destruct q as [a b].
  assert (Ha : (0 < a)%Z).
  { unfold Qlt in Hq. simpl in Hq. lia. }
  destruct (inject_Z_log2_bounds a Ha) as [Halo Hahi].
  destruct (inject_Z_log2_bounds (Zpos b) eq_refl) as [Hblo Hbhi].
  pose proof (Qmake_mul_den a b) as Hab.
  set (la := Z.log2 a) in *. set (lb := Z.log2 (Zpos b)) in *.
  set (k := (la - lb)%Z).
  assert (Hb : 0 < inject_Z (Zpos b)) by (rewrite <- (Zlt_Qlt 0); reflexivity).
  assert (Hup : a # b < B64.pow2 (k + 1)).
  { assert (E : B64.pow2 (la + 1) == B64.pow2 (k + 1) * B64.pow2 lb).
    { rewrite <- pow2_add. replace (k + 1 + lb)%Z with (la + 1)%Z by lia.
      reflexivity. }
    pose proof (pow2_pos (k + 1)). pose proof (pow2_pos lb).
    apply Qnot_le_lt. intros Hc.
    assert (B64.pow2 (k + 1) * inject_Z (Zpos b) <= (a # b) * inject_Z (Zpos b))
      by (apply Qmult_le_compat_r; lra).
    assert (B64.pow2 (k + 1) * B64.pow2 lb <= B64.pow2 (k + 1) * inject_Z (Zpos b))
      by (apply Qmult_le_l; lra).
    lra. }
  assert (Hlow : B64.pow2 (k - 1) <= a # b).
  { assert (E : B64.pow2 la == B64.pow2 (k - 1) * B64.pow2 (lb + 1)).
    { rewrite <- pow2_add. replace (k - 1 + (lb + 1))%Z with la by lia.
      reflexivity. }
    pose proof (pow2_pos (k - 1)). pose proof (pow2_pos (lb + 1)).
    apply Qnot_lt_le. intros Hc.
    assert ((a # b) * inject_Z (Zpos b) < B64.pow2 (k - 1) * inject_Z (Zpos b))
      by (apply Qmult_lt_compat_r; lra).
    assert (B64.pow2 (k - 1) * inject_Z (Zpos b) <= B64.pow2 (k - 1) * B64.pow2 (lb + 1))
      by (apply Qmult_le_l; lra).
    lra. }
  unfold B64.ilog2. cbn [Qnum Qden]. fold la lb k.
  destruct (Qle_bool (B64.pow2 k) (a # b)) eqn:Hcmp.
  - apply Qle_bool_iff in Hcmp. split; assumption.
  - split; [exact Hlow|].
    replace (k - 1 + 1)%Z with k by lia.
    apply Qnot_le_lt. intros Hc. apply Qle_bool_iff in Hc. congruence.
Qed.

Lemma ilog2_lt q k : 0 < q -> q < B64.pow2 k -> (B64.ilog2 q < k)%Z.
Proof.
  intros Hq Hk. destruct (ilog2_spec q Hq) as [Hlo _].
  apply pow2_lt_inv. lra.
Qed.

Lemma ilog2_ge q k : 0 < q -> B64.pow2 k <= q -> (k <= B64.ilog2 q)%Z.
Proof.
  intros Hq Hk. destruct (ilog2_spec q Hq) as [_ Hhi].
  assert (H : (k < B64.ilog2 q + 1)%Z) by (apply pow2_lt_inv; lra).
  lia.
Qed.

Lemma ilog2_mono q1 q2 :
  0 < q1 -> q1 <= q2 -> (B64.ilog2 q1 <= B64.ilog2 q2)%Z.
Proof.
  intros H1 H12. destruct (ilog2_spec q1 H1) as [Hlo _].
  apply ilog2_ge; lra.
Qed.

Lemma fexp64_mono q1 q2 :
  0 < q1 -> q1 <= q2 -> (B64.fexp64 q1 <= B64.fexp64 q2)%Z.
Proof.
  intros H1 H12. pose proof (ilog2_mono q1 q2 H1 H12).
  unfold B64.fexp64. lia.
Qed.

(** ** Rounding to the nearest integer *)

Ltac qcompare_prop H :=
  match type of H with
  | Qcompare _ _ = Eq => apply Qeq_alt in H
  | Qcompare _ _ = Lt => apply Qlt_alt in H
  | Qcompare _ _ = Gt => apply Qgt_alt in H
  end.

Lemma rne_cases q :
  let f := Qfloor q in
  (B64.rne q = f /\ q - inject_Z f <= 1 # 2) \/
  (B64.rne q = (f + 1)%Z /\ 1 # 2 <= q - inject_Z f).
Proof.
  intros f. unfold B64.rne. fold f.
  destruct (Qcompare (q - inject_Z f) (1 # 2)) eqn:Hc; qcompare_prop Hc.
  - destruct (Z.even f); [left|right]; split; try reflexivity; lra.
  - left. split; [reflexivity|lra].
  - right. split; [reflexivity|lra].
Qed.

Lemma rne_mono q1 q2 : q1 <= q2 -> (B64.rne q1 <= B64.rne q2)%Z.
Proof.
  intros H12.
  pose proof (Qfloor_resp_le q1 q2 H12) as Hf.
  destruct (Z.eq_dec (Qfloor q1) (Qfloor q2)) as [Heq|Hne].
  - unfold B64.rne. rewrite <- Heq.
    destruct (Qcompare (q1 - inject_Z (Qfloor q1)) (1 # 2)) eqn:Hc1;
    destruct (Qcompare (q2 - inject_Z (Qfloor q1)) (1 # 2)) eqn:Hc2;
      try (destruct (Z.even (Qfloor q1))); try lia;
      qcompare_prop Hc1; qcompare_prop Hc2; exfalso; lra.
  - destruct (rne_cases q1) as [[-> _]|[-> _]];
    destruct (rne_cases q2) as [[-> _]|[-> _]]; lia.
Qed.

Lemma rne_inject z q : q == inject_Z z -> B64.rne q = z.
Proof.
  intros Hq.
  assert (Hf : Qfloor q = z)
    by (rewrite (Qfloor_comp q (inject_Z z) Hq); apply Qfloor_Z).
  unfold B64.rne. rewrite Hf.
  destruct (Qcompare (q - inject_Z z) (1 # 2)) eqn:Hc;
    qcompare_prop Hc; [exfalso; lra|reflexivity|exfalso; lra].
Qed.

Lemma rne_ge z q : inject_Z z <= q -> (z <= B64.rne q)%Z.
Proof.
  intros H. rewrite <- (rne_inject z (inject_Z z)) by reflexivity.
  now apply rne_mono.
Qed.

Lemma rne_le z q : q <= inject_Z z -> (B64.rne q <= z)%Z.
Proof.
  intros H. rewrite <- (rne_inject z (inject_Z z)) by reflexivity.
  now apply rne_mono.
Qed.

(** ** The binary64 grid *)

Lemma fexp64_ge q : (-1074 <= B64.fexp64 q)%Z.
Proof. unfold B64.fexp64. lia. Qed.

Lemma scaled_lt q :
  0 < q -> q / B64.pow2 (B64.fexp64 q) < B64.pow2 53.
Proof.
  intros Hq. apply div_pow2_lt_pow2.
  destruct (ilog2_spec q Hq) as [_ Hhi].
  eapply Qlt_le_trans; [exact Hhi|]. apply pow2_le.
  unfold B64.fexp64. lia.
Qed.

Lemma scaled_ge q :
  0 < q -> (-1074 < B64.fexp64 q)%Z ->
  B64.pow2 52 <= q / B64.pow2 (B64.fexp64 q).
Proof.
  intros Hq He. apply div_pow2_ge_pow2.
  destruct (ilog2_spec q Hq) as [Hlo _].
  eapply Qle_trans; [|exact Hlo]. apply pow2_le.
  unfold B64.fexp64 in *. lia.
Qed.

Lemma scaled_pos q : 0 < q -> 0 < q / B64.pow2 (B64.fexp64 q).
Proof.
  intros Hq. apply Qlt_shift_div_l; [apply pow2_pos|lra].
Qed.

Lemma mantissa_bounds q :
  0 < q ->
  let m := B64.rne (q / B64.pow2 (B64.fexp64 q)) in
  (0 <= m <= 2 ^ 53)%Z /\ ((-1074 < B64.fexp64 q)%Z -> (2 ^ 52 <= m)%Z).
Proof.
  intros Hq m. subst m. repeat split.
  - apply rne_ge. apply Qlt_le_weak. now apply scaled_pos.
  - apply rne_le. rewrite <- pow2_Z by lia.
    apply Qlt_le_weak. now apply scaled_lt.
  - intros He. apply rne_ge. rewrite <- pow2_Z by lia. now apply scaled_ge.
Qed.

Lemma round_mag_spec q :
  0 < q ->
  let m0 := B64.rne (q / B64.pow2 (B64.fexp64 q)) in
  let m := fst (B64.round_mag q) in
  let e := snd (B64.round_mag q) in
  (0 <= m < 2 ^ 53)%Z /\
  (B64.fexp64 q <= e <= B64.fexp64 q + 1)%Z /\
  ((-1074 < e)%Z -> (2 ^ 52 <= m)%Z) /\
  (e = B64.fexp64 q + 1 <-> m0 = 2 ^ 53)%Z /\
  B64.mag_value (B64.round_mag q) == inject_Z m0 * B64.pow2 (B64.fexp64 q).
Proof.
  intros Hq m0 m e. subst m e.
  destruct (mantissa_bounds q Hq) as [Hm Hnorm]. fold m0 in Hm, Hnorm.
  pose proof (fexp64_ge q) as He.
  unfold B64.round_mag, B64.mag_value. fold m0.
  destruct (Z.eqb_spec m0 (2 ^ 53)) as [Heq|Hne]; cbn [fst snd].
  - repeat split; try lia.
    rewrite Heq, pow2_succ, <- !pow2_Z by lia.
    rewrite (pow2_succ 52). ring.
  - repeat split; try lia; reflexivity.
Qed.

Lemma round_mag_value_mono q1 q2 :
  0 < q1 -> q1 <= q2 ->
  B64.mag_value (B64.round_mag q1) <= B64.mag_value (B64.round_mag q2).
Proof.
  intros H1 H12. assert (H2 : 0 < q2) by lra.
  destruct (round_mag_spec q1 H1) as (_ & _ & _ & _ & ->).
  destruct (round_mag_spec q2 H2) as (_ & _ & _ & _ & ->).
  pose proof (fexp64_mono q1 q2 H1 H12) as He.
  destruct (mantissa_bounds q1 H1) as [Hm1 _].
  destruct (mantissa_bounds q2 H2) as [Hm2 Hn2].
  pose proof (fexp64_ge q1) as Hge1.
  set (e1 := B64.fexp64 q1) in *. set (e2 := B64.fexp64 q2) in *.
  set (m1 := B64.rne (q1 / B64.pow2 e1)) in *.
  set (m2 := B64.rne (q2 / B64.pow2 e2)) in *.
  destruct (Z.eq_dec e1 e2) as [Heq|Hne].
  - subst m1 m2. rewrite <- Heq.
    apply Qmult_le_compat_r; [|apply Qlt_le_weak, pow2_pos].
    rewrite <- Zle_Qle. apply rne_mono. now apply div_pow2_le.
  - assert (Hlt : (e1 < e2)%Z) by lia.
    apply Qle_trans with (B64.pow2 (e1 + 53)).
    + rewrite Z.add_comm, pow2_add.
      apply Qmult_le_compat_r; [|apply Qlt_le_weak, pow2_pos].
      rewrite pow2_Z by lia. rewrite <- Zle_Qle. lia.
    + apply Qle_trans with (B64.pow2 (e2 + 52)); [apply pow2_le; lia|].
      rewrite Z.add_comm, pow2_add.
      apply Qmult_le_compat_r; [|apply Qlt_le_weak, pow2_pos].
      rewrite pow2_Z by lia. rewrite <- Zle_Qle. apply Hn2. lia.
Qed.

Lemma round_mag_exp_mono q1 q2 :
  0 < q1 -> q1 <= q2 ->
  (snd (B64.round_mag q1) <= snd (B64.round_mag q2))%Z.
Proof.
  intros H1 H12. assert (H2 : 0 < q2) by lra.
  destruct (round_mag_spec q1 H1) as (_ & Hb1 & _ & Hn1 & _).
  destruct (round_mag_spec q2 H2) as (_ & Hb2 & _ & Hn2 & _).
  pose proof (fexp64_mono q1 q2 H1 H12) as He.
  destruct (mantissa_bounds q2 H2) as [Hm2 _].
  destruct (Z.eq_dec (B64.fexp64 q1) (B64.fexp64 q2)) as [Heq|Hne]; [|lia].
  destruct (Z.eq_dec (snd (B64.round_mag q1)) (B64.fexp64 q1)) as [|Hup];
    [lia|].
  assert (Hm1 : B64.rne (q1 / B64.pow2 (B64.fexp64 q1)) = (2 ^ 53)%Z)
    by (apply Hn1; lia).
  assert (Hle : (B64.rne (q1 / B64.pow2 (B64.fexp64 q1)) <=
                 B64.rne (q2 / B64.pow2 (B64.fexp64 q2)))%Z).
  { rewrite <- Heq. apply rne_mono. now apply div_pow2_le. }
  assert (B64.rne (q2 / B64.pow2 (B64.fexp64 q2)) = (2 ^ 53)%Z) by lia.
  apply Hn2 in H. lia.
Qed.

(** A number already on the grid is left where it is. *)
Lemma round_mag_on_grid q m e :
  (0 < m < 2 ^ 53)%Z -> (-1074 <= e)%Z ->
  q == inject_Z m * B64.pow2 e ->
  B64.mag_value (B64.round_mag q) == q /\ (snd (B64.round_mag q) <= e)%Z.
Proof.
  intros Hm He Hq.
  assert (Hpos : 0 < q).
  { rewrite Hq. apply Qmult_lt_0_compat; [|apply pow2_pos].
    rewrite <- (Zlt_Qlt 0). lia. }
  assert (Hfe : (B64.fexp64 q <= e)%Z).
  { assert (B64.ilog2 q < e + 53)%Z; [|unfold B64.fexp64; lia].
    apply ilog2_lt; [exact Hpos|].
    rewrite Hq, Z.add_comm, pow2_add.
    apply Qmult_lt_compat_r; [apply pow2_pos|].
    rewrite pow2_Z by lia. rewrite <- Zlt_Qlt. lia. }
  set (f := B64.fexp64 q) in *.
  assert (Hs : q / B64.pow2 f == inject_Z (m * 2 ^ (e - f))).
  { rewrite inject_Z_mult, <- pow2_Z by lia.
    rewrite Hq, div_pow2, <- Qmult_assoc, <- pow2_add.
    replace (e + - f)%Z with (e - f)%Z by lia. reflexivity. }
  destruct (round_mag_spec q Hpos) as (_ & Hb & _ & Hn & Hv).
  fold f in Hb, Hn, Hv. rewrite (rne_inject _ _ Hs) in Hn, Hv.
  split.
  - rewrite Hv, <- Hs. apply mul_div_pow2.
  - destruct (Z.eq_dec (snd (B64.round_mag q)) f) as [->|Hup]; [exact Hfe|].
    assert (Hk : (m * 2 ^ (e - f) = 2 ^ 53)%Z) by (apply Hn; lia).
    destruct (Z.eq_dec e f) as [Heq|Hne]; [|lia].
    rewrite Heq, Z.sub_diag in Hk. lia.
Qed.

(** ** Order of values *)

Lemma xval_leb_trans x y z :
  xval_leb x y = true -> xval_leb y z = true -> xval_leb x z = true.
Proof.
  destruct x as [| |a|], y as [| |b|], z as [| |c|]; simpl;
    try reflexivity; try discriminate.
  intros H1 H2. apply Qle_bool_iff in H1. apply Qle_bool_iff in H2.
  apply Qle_bool_iff. lra.
Qed.

Lemma xval_leb_fin a b : xval_leb (XFin a) (XFin b) = true <-> a <= b.
Proof. simpl. apply Qle_bool_iff. Qed.

Lemma xval_ltb_leb x y : xval_ltb x y = true -> xval_leb x y = true.
Proof.
  destruct x as [| |a|], y as [| |b|]; simpl; try reflexivity;
    try discriminate.
  intros H. apply negb_true_iff in H. apply Qle_bool_iff.
  destruct (Qlt_le_dec a b) as [Hlt|Hle]; [lra|].
  apply Qle_bool_iff in Hle. congruence.
Qed.

Lemma xval_ltb_leb_trans x y z :
  xval_ltb x y = true -> xval_leb y z = true -> xval_ltb x z = true.
Proof.
  destruct x as [| |a|], y as [| |b|], z as [| |c|]; simpl;
    try reflexivity; try discriminate.
  intros H1 H2. apply negb_true_iff in H1. apply Qle_bool_iff in H2.
  apply negb_true_iff. destruct (Qle_bool c a) eqn:Hca; [|reflexivity].
  apply Qle_bool_iff in Hca.
  assert (Hba : b <= a) by lra. apply Qle_bool_iff in Hba. congruence.
Qed.

(** ** Rounding of positive rationals *)


Lemma round_pos_cases q :
  0 < q ->
  let m := fst (B64.round_mag q) in
  let e := snd (B64.round_mag q) in
  (m = 0%Z /\ B64.round_pos false q = S754_zero false) \/
  (exists p, m = Zpos p /\ (e <= 971)%Z /\
             B64.round_pos false q = S754_finite false p e) \/
  (exists p, m = Zpos p /\ (971 < e)%Z /\
             B64.round_pos false q = S754_infinity false).
Proof.
  intros Hq m e. subst m e.
  destruct (round_mag_spec q Hq) as ([Hm _] & _).
  unfold B64.round_pos. destruct (B64.round_mag q) as [m e]. cbn [fst snd] in *.
  destruct m as [|p|p]; [left; now split| |lia].
  right. destruct (Z.leb_spec e 971); [left|right]; exists p; now repeat split.
Qed.

Lemma F2Q_finite_pos p e :
  B64.F2Q (S754_finite false p e) = B64.mag_value (Zpos p, e).
Proof. reflexivity. Qed.

Lemma mag_value_pos p e : 0 < B64.mag_value (Zpos p, e).
Proof.
  unfold B64.mag_value. cbn [fst snd].
  apply Qmult_lt_0_compat; [reflexivity|apply pow2_pos].
Qed.

Lemma round_pos_nonneg q :
  0 < q -> xval_leb (XFin 0) (float_val (B64.round_pos false q)) = true.
Proof.
  intros Hq.
  destruct (round_pos_cases q Hq) as [[_ ->]|[(p & _ & _ & ->)|(p & _ & _ & ->)]];
    try reflexivity.
  cbn [float_val]. apply xval_leb_fin. rewrite F2Q_finite_pos.
  apply Qlt_le_weak, mag_value_pos.
Qed.

Lemma round_pos_grid q : 0 < q -> B64.nonneg_grid (B64.round_pos false q).
Proof.
  intros Hq. destruct (round_mag_spec q Hq) as (Hm & He & _).
  pose proof (fexp64_ge q).
  destruct (round_pos_cases q Hq)
    as [[_ ->]|[(p & Hp & _ & ->)|(p & _ & _ & ->)]]; simpl; try easy.
  rewrite Hp in Hm. repeat split; lia.
Qed.

Lemma round_pos_mono q1 q2 :
  0 < q1 -> q1 <= q2 ->
  B64.round_pos false q1 <=f B64.round_pos false q2.
Proof.
  intros H1 H12. assert (H2 : 0 < q2) by lra.
  pose proof (round_mag_value_mono q1 q2 H1 H12) as Hv.
  pose proof (round_mag_exp_mono q1 q2 H1 H12) as He.
  destruct (round_pos_cases q1 H1)
    as [[_ ->]|[(p1 & Hp1 & He1 & ->)|(p1 & Hp1 & He1 & ->)]].
  - now apply round_pos_nonneg.
  - destruct (round_pos_cases q2 H2)
      as [[Hm2 _]|[(p2 & Hp2 & He2 & ->)|(p2 & _ & _ & ->)]].
    + exfalso. unfold B64.mag_value in Hv. rewrite Hp1, Hm2 in Hv.
      change (inject_Z 0) with 0 in Hv.
      pose proof (mag_value_pos p1 (snd (B64.round_mag q1))) as Hpos.
      unfold B64.mag_value in Hpos. cbn [fst snd] in Hpos. lra.
    + cbn [float_val]. apply xval_leb_fin. rewrite !F2Q_finite_pos.
      unfold B64.mag_value in *. cbn [fst snd].
      rewrite Hp1, Hp2 in Hv. exact Hv.
    + reflexivity.
  - destruct (round_pos_cases q2 H2)
      as [[Hm2 _]|[(p2 & Hp2 & He2 & _)|(p2 & _ & _ & ->)]].
    + exfalso. unfold B64.mag_value in Hv. rewrite Hp1, Hm2 in Hv.
      change (inject_Z 0) with 0 in Hv.
      pose proof (mag_value_pos p1 (snd (B64.round_mag q1))) as Hpos.
      unfold B64.mag_value in Hpos. cbn [fst snd] in Hpos. lra.
    + lia.
    + reflexivity.
Qed.

(** A positive float on the grid is not above the rounding of its value. *)
Lemma round_pos_fix p e :
  (Zpos p < 2 ^ 53)%Z -> (-1074 <= e)%Z ->
  xval_leb (XFin (B64.mag_value (Zpos p, e)))
    (float_val (B64.round_pos false (B64.mag_value (Zpos p, e)))) = true.
Proof.
  intros Hp He. set (q := B64.mag_value (Zpos p, e)).
  assert (Hq : 0 < q) by apply mag_value_pos.
  destruct (round_mag_on_grid q (Zpos p) e) as [Hv _];
    [lia|exact He|reflexivity|].
  destruct (round_pos_cases q Hq)
    as [[Hm _]|[(p' & Hp' & _ & ->)|(p' & _ & _ & ->)]].
  - exfalso. unfold B64.mag_value at 1 in Hv. rewrite Hm in Hv.
    change (inject_Z 0) with 0 in Hv. lra.
  - cbn [float_val]. apply xval_leb_fin. rewrite F2Q_finite_pos.
    unfold B64.mag_value at 1 in Hv. rewrite Hp' in Hv.
    unfold B64.mag_value at 1. cbn [fst snd]. lra.
  - reflexivity.
Qed.

(** The same, and no overflow, when the exponent is in range. *)
Lemma round_pos_fix_finite p e :
  (Zpos p < 2 ^ 53)%Z -> (-1074 <= e <= 971)%Z ->
  exists q, float_val (B64.round_pos false (B64.mag_value (Zpos p, e))) =
            XFin q /\ q == B64.mag_value (Zpos p, e).
Proof.
  intros Hp He. set (q := B64.mag_value (Zpos p, e)).
  assert (Hq : 0 < q) by apply mag_value_pos.
  destruct (round_mag_on_grid q (Zpos p) e) as [Hv Hexp];
    [lia|lia|reflexivity|].
  destruct (round_pos_cases q Hq)
    as [[Hm _]|[(p' & Hp' & _ & ->)|(p' & _ & Hov & _)]].
  - exfalso. unfold B64.mag_value at 1 in Hv. rewrite Hm in Hv.
    change (inject_Z 0) with 0 in Hv. lra.
  - eexists. split; [reflexivity|]. rewrite F2Q_finite_pos.
    unfold B64.mag_value at 1 in Hv. rewrite Hp' in Hv.
    unfold B64.mag_value at 1. cbn [fst snd]. exact Hv.
  - lia.
Qed.

Lemma round_pos_proper q1 q2 :
  0 < q1 -> q1 == q2 ->
  B64.round_pos false q1 <=f B64.round_pos false q2 /\
  B64.round_pos false q2 <=f B64.round_pos false q1.
Proof.
  intros H1 Heq. split; apply round_pos_mono; lra.
Qed.

(** ** Rounding of non-negative rationals *)

Lemma rnd_zero q : q == 0 -> B64.rnd q = S754_zero false.
Proof.
  intros Hq. unfold B64.rnd.
  destruct (Qcompare q 0) eqn:Hc; qcompare_prop Hc; [reflexivity|lra|lra].
Qed.

Lemma rnd_pos q : 0 < q -> B64.rnd q = B64.round_pos false q.
Proof.
  intros Hq. unfold B64.rnd.
  destruct (Qcompare q 0) eqn:Hc; qcompare_prop Hc; [lra|lra|reflexivity].
Qed.

Lemma rnd_nonneg q : 0 <= q -> nonneg (B64.rnd q).
Proof.
  intros Hq. destruct (Qlt_le_dec 0 q) as [Hpos|Hle].
  - rewrite rnd_pos by exact Hpos. now apply round_pos_nonneg.
  - rewrite rnd_zero by lra. reflexivity.
Qed.

Lemma rnd_grid q : 0 <= q -> B64.nonneg_grid (B64.rnd q).
Proof.
  intros Hq. destruct (Qlt_le_dec 0 q) as [Hpos|Hle].
  - rewrite rnd_pos by exact Hpos. now apply round_pos_grid.
  - rewrite rnd_zero by lra. exact I.
Qed.

Lemma rnd_mono q1 q2 : 0 <= q1 -> q1 <= q2 -> B64.rnd q1 <=f B64.rnd q2.
Proof.
  intros H1 H12. destruct (Qlt_le_dec 0 q1) as [Hpos|Hle].
  - rewrite !rnd_pos by lra. now apply round_pos_mono.
  - rewrite (rnd_zero q1) by lra. apply rnd_nonneg. lra.
Qed.

(** ** Non-negative floats *)

Lemma F2Q_finite_neg p e : B64.F2Q (S754_finite true p e) < 0.
Proof.
  cbn [B64.F2Q cond_Zopp].
  pose proof (mag_value_pos p e) as H. unfold B64.mag_value in H.
  cbn [fst snd] in H.
  change (inject_Z (Z.opp (Zpos p))) with (inject_Z (- Zpos p)).
  rewrite inject_Z_opp. lra.
Qed.

Lemma nonneg_cases x :
  nonneg x ->
  (exists s, x = S754_zero s) \/ x = S754_infinity false \/
  (exists p e, x = S754_finite false p e).
Proof.
  unfold nonneg.
  destruct x as [s|[|]| |[|] p e]; cbn [float_val xval_leb];
    try discriminate; eauto.
  intros H. apply Qle_bool_iff in H.
  pose proof (F2Q_finite_neg p e) as Hn. lra.
Qed.

Lemma nonneg_F2Q x : nonneg x -> 0 <= B64.F2Q x.
Proof.
  intros H. destruct (nonneg_cases x H) as [[s ->]|[->|(p & e & ->)]];
    try (simpl; lra).
  rewrite F2Q_finite_pos. apply Qlt_le_weak, mag_value_pos.
Qed.

Lemma finite_val x : is_finite x = true -> float_val x = XFin (B64.F2Q x).
Proof. destruct x; simpl; try discriminate; reflexivity. Qed.

Lemma nonneg_grid_nonneg x : B64.nonneg_grid x -> nonneg x.
Proof.
  unfold nonneg.
  destruct x as [s|s| |s p e]; cbn [B64.nonneg_grid float_val xval_leb].
  - reflexivity.
  - now intros ->.
  - intros [].
  - intros [-> _]. apply Qle_bool_iff. rewrite F2Q_finite_pos.
    apply Qlt_le_weak, mag_value_pos.
Qed.

Lemma le_nonneg x y : nonneg x -> x <=f y -> nonneg y.
Proof. unfold nonneg. intros Hx Hxy. eapply xval_leb_trans; eassumption. Qed.

Lemma le_finite x y :
  nonneg x -> x <=f y -> is_finite y = true -> is_finite x = true.
Proof.
  intros Hx Hxy Hy.
  destruct (nonneg_cases x Hx) as [[s ->]|[->|(p & e & ->)]];
    try reflexivity.
  destruct y; simpl in *; discriminate.
Qed.

Lemma le_F2Q x y :
  is_finite x = true -> is_finite y = true -> x <=f y ->
  B64.F2Q x <= B64.F2Q y.
Proof.
  intros Hx Hy. rewrite (finite_val x Hx), (finite_val y Hy).
  apply xval_leb_fin.
Qed.

Lemma F2Q_le x y :
  is_finite x = true -> is_finite y = true ->
  B64.F2Q x <= B64.F2Q y -> x <=f y.
Proof.
  intros Hx Hy. rewrite (finite_val x Hx), (finite_val y Hy).
  apply xval_leb_fin.
Qed.

Lemma le_pos_inf x : nonneg x -> x <=f S754_infinity false.
Proof.
  intros H. destruct (nonneg_cases x H) as [[s ->]|[->|(p & e & ->)]];
    reflexivity.
Qed.

Lemma le_refl_nonneg x : nonneg x -> x <=f x.
Proof.
  intros H. destruct (nonneg_cases x H) as [[s ->]|[->|(p & e & ->)]];
    try reflexivity; simpl; apply Qle_bool_iff; lra.
Qed.

(** ** Addition of non-negative floats *)

Lemma add_finite_val x y :
  is_finite x = true -> is_finite y = true ->
  float_val (B64.add x y) = float_val (B64.rnd (B64.F2Q x + B64.F2Q y)).
Proof.
  intros Hx Hy.
  assert (E : B64.add x y =
              match Qcompare (B64.F2Q x + B64.F2Q y) 0 with
              | Eq => S754_zero (B64.sign_of x && B64.sign_of y)
              | _ => B64.rnd (B64.F2Q x + B64.F2Q y)
              end).
  { destruct x, y; try discriminate; reflexivity. }
  rewrite E.
  destruct (Qcompare (B64.F2Q x + B64.F2Q y) 0) eqn:Hc; try reflexivity.
  qcompare_prop Hc. rewrite (rnd_zero _ Hc). reflexivity.
Qed.

Lemma add_inf_l y : nonneg y -> B64.add (S754_infinity false) y = S754_infinity false.
Proof.
  intros H. destruct (nonneg_cases y H) as [[s ->]|[->|(p & e & ->)]];
    reflexivity.
Qed.

Lemma add_inf_r x : nonneg x -> B64.add x (S754_infinity false) = S754_infinity false.
Proof.
  intros H. destruct (nonneg_cases x H) as [[s ->]|[->|(p & e & ->)]];
    reflexivity.
Qed.

Lemma nonneg_finite_or_inf x :
  nonneg x -> is_finite x = true \/ x = S754_infinity false.
Proof.
  intros H. destruct (nonneg_cases x H) as [[s ->]|[->|(p & e & ->)]]; auto.
Qed.

Lemma add_grid x y : nonneg x -> nonneg y -> B64.nonneg_grid (B64.add x y).
Proof.
  intros Hx Hy.
  destruct (nonneg_finite_or_inf x Hx) as [Fx| ->];
    [|rewrite add_inf_l by exact Hy; reflexivity].
  destruct (nonneg_finite_or_inf y Hy) as [Fy| ->];
    [|rewrite add_inf_r by exact Hx; reflexivity].
  pose proof (nonneg_F2Q x Hx). pose proof (nonneg_F2Q y Hy).
  assert (E : B64.add x y =
              match Qcompare (B64.F2Q x + B64.F2Q y) 0 with
              | Eq => S754_zero (B64.sign_of x && B64.sign_of y)
              | _ => B64.rnd (B64.F2Q x + B64.F2Q y)
              end).
  { destruct x, y; try discriminate; reflexivity. }
  rewrite E.
  destruct (Qcompare (B64.F2Q x + B64.F2Q y) 0); try exact I;
    apply rnd_grid; lra.
Qed.

Lemma add_mono x1 y1 x2 y2 :
  nonneg x1 -> nonneg y1 -> x1 <=f x2 -> y1 <=f y2 ->
  B64.add x1 y1 <=f B64.add x2 y2.
Proof.
  intros Hx1 Hy1 Hx Hy.
  pose proof (le_nonneg _ _ Hx1 Hx) as Hx2.
  pose proof (le_nonneg _ _ Hy1 Hy) as Hy2.
  destruct (nonneg_finite_or_inf x2 Hx2) as [Fx2| ->].
  2:{ rewrite (add_inf_l y2 Hy2). apply le_pos_inf.
      apply nonneg_grid_nonneg. now apply add_grid. }
  destruct (nonneg_finite_or_inf y2 Hy2) as [Fy2| ->].
  2:{ rewrite (add_inf_r x2 Hx2). apply le_pos_inf.
      apply nonneg_grid_nonneg. now apply add_grid. }
  pose proof (le_finite _ _ Hx1 Hx Fx2) as Fx1.
  pose proof (le_finite _ _ Hy1 Hy Fy2) as Fy1.
  rewrite !add_finite_val by assumption.
  pose proof (nonneg_F2Q x1 Hx1). pose proof (nonneg_F2Q y1 Hy1).
  pose proof (le_F2Q _ _ Fx1 Fx2 Hx). pose proof (le_F2Q _ _ Fy1 Fy2 Hy).
  apply rnd_mono; lra.
Qed.

Lemma add_ge_l x y : B64.nonneg_grid x -> nonneg y -> x <=f B64.add x y.
Proof.
  intros Gx Hy. pose proof (nonneg_grid_nonneg x Gx) as Hx.
  destruct (nonneg_finite_or_inf y Hy) as [Fy| ->].
  2:{ rewrite (add_inf_r x Hx). now apply le_pos_inf. }
  destruct (nonneg_cases x Hx) as [[s ->]|[->|(p & e & ->)]].
  - apply (nonneg_grid_nonneg (B64.add (S754_zero s) y)).
    now apply add_grid.
  - rewrite (add_inf_l y Hy). reflexivity.
  - rewrite add_finite_val by (reflexivity || assumption).
    destruct Gx as (_ & Hp & He).
    pose proof (nonneg_F2Q y Hy) as Hy0.
    pose proof (mag_value_pos p e) as Hpos.
    eapply xval_leb_trans.
    + cbn [float_val]. rewrite F2Q_finite_pos.
      apply (round_pos_fix p e Hp He).
    + rewrite <- rnd_pos by exact Hpos. rewrite F2Q_finite_pos.
      apply rnd_mono; lra.
Qed.

(** ** Multiplication of non-negative finite floats *)

Lemma mul_cases x y :
  nonneg x -> nonneg y -> is_finite x = true -> is_finite y = true ->
  (0 < B64.F2Q x * B64.F2Q y /\
   B64.mul x y = B64.round_pos false (Qabs (B64.F2Q x) * Qabs (B64.F2Q y))) \/
  ((B64.F2Q x == 0 \/ B64.F2Q y == 0) /\
   exists s, B64.mul x y = S754_zero s).
Proof.
  intros Hx Hy Fx Fy.
  destruct (nonneg_cases x Hx) as [[s ->]|[->|(p & e & ->)]];
    [|discriminate|];
  (destruct (nonneg_cases y Hy) as [[s' ->]|[->|(p' & e' & ->)]];
    [|discriminate|]).
  - right. split; [left; reflexivity|eexists; reflexivity].
  - right. split; [left; reflexivity|eexists; reflexivity].
  - right. split; [right; reflexivity|eexists; reflexivity].
  - left. split; [|reflexivity].
    rewrite !F2Q_finite_pos.
    apply Qmult_lt_0_compat; apply mag_value_pos.
Qed.

Lemma mul_grid x y :
  nonneg x -> nonneg y -> is_finite x = true -> is_finite y = true ->
  B64.nonneg_grid (B64.mul x y).
Proof.
  intros Hx Hy Fx Fy.
  pose proof (nonneg_F2Q x Hx) as Hx0. pose proof (nonneg_F2Q y Hy) as Hy0.
  destruct (mul_cases x y Hx Hy Fx Fy) as [[Hpos ->]|[_ [s ->]]]; [|exact I].
  apply round_pos_grid. rewrite !Qabs_pos by assumption. exact Hpos.
Qed.

Lemma mul_mono x1 x2 r :
  nonneg x1 -> nonneg r -> x1 <=f x2 ->
  is_finite x2 = true -> is_finite r = true ->
  B64.mul x1 r <=f B64.mul x2 r.
Proof.
  intros Hx1 Hr Hx Fx2 Fr.
  pose proof (le_nonneg _ _ Hx1 Hx) as Hx2.
  pose proof (le_finite _ _ Hx1 Hx Fx2) as Fx1.
  pose proof (nonneg_F2Q x1 Hx1) as H1. pose proof (nonneg_F2Q x2 Hx2) as H2.
  pose proof (nonneg_F2Q r Hr) as H0.
  pose proof (le_F2Q _ _ Fx1 Fx2 Hx) as H12.
  destruct (mul_cases x1 r Hx1 Hr Fx1 Fr) as [[Hpos1 ->]|[_ [s ->]]].
  - destruct (mul_cases x2 r Hx2 Hr Fx2 Fr) as [[Hpos2 ->]|[Hz _]].
    + apply round_pos_mono; rewrite !Qabs_pos by assumption;
        [exact Hpos1|].
      apply Qmult_le_compat_r; assumption.
    + exfalso. destruct Hz as [Hz|Hz]; rewrite Hz in *.
      * assert (B64.F2Q x1 == 0) by lra. rewrite H in Hpos1. lra.
      * lra.
  - apply (nonneg_grid_nonneg (B64.mul x2 r)). now apply mul_grid.
Qed.

(** ** Numbers that rounding leaves unchanged *)

Lemma round_pos_exact q m e :
  (0 < m < 2 ^ 53)%Z -> (-1074 <= e <= 971)%Z ->
  q == inject_Z m * B64.pow2 e ->
  is_finite (B64.round_pos false q) = true /\
  B64.F2Q (B64.round_pos false q) == q.
Proof.
  intros Hm He Hq.
  assert (Hpos : 0 < q).
  { rewrite Hq. apply Qmult_lt_0_compat; [|apply pow2_pos].
    rewrite <- (Zlt_Qlt 0). lia. }
  destruct (round_mag_on_grid q m e Hm) as [Hv Hexp]; [lia|exact Hq|].
  destruct (round_pos_cases q Hpos)
    as [[Hm0 _]|[(p' & Hp' & _ & ->)|(p' & _ & Hov & _)]].
  - exfalso. unfold B64.mag_value at 1 in Hv. rewrite Hm0 in Hv.
    change (inject_Z 0) with 0 in Hv. lra.
  - split; [reflexivity|]. rewrite F2Q_finite_pos.
    unfold B64.mag_value in *. cbn [fst snd]. rewrite <- Hp'. exact Hv.
  - lia.
Qed.

Lemma rnd_int_exact z :
  (0 <= z < 2 ^ 53)%Z ->
  is_finite (B64.rnd (inject_Z z)) = true /\
  B64.F2Q (B64.rnd (inject_Z z)) == inject_Z z.
Proof.
  intros Hz. destruct (Z.eq_dec z 0) as [->|Hne].
  - split; reflexivity.
  - assert (Hpos : 0 < inject_Z z) by (rewrite <- (Zlt_Qlt 0); lia).
    rewrite rnd_pos by exact Hpos.
    apply (round_pos_exact _ z 0); [lia|lia|].
    change (B64.pow2 0) with 1. ring.
Qed.

Lemma to_float_exact z :
  (0 <= z < 2 ^ 53)%Z -> to_float z = inr (B64.rnd (inject_Z z)).
Proof.
  intros Hz. destruct (rnd_int_exact z Hz) as [Hfin _].
  unfold to_float. destruct (B64.rnd (inject_Z z)); try discriminate;
    reflexivity.
Qed.

Lemma digits2_pos_bound m : (Zpos m < 2 ^ Zpos (digits2_pos m))%Z.
Proof.
  induction m as [m IH|m IH|]; cbn [digits2_pos].
  - rewrite Pos2Z.inj_succ, Z.pow_succ_r by lia. lia.
  - rewrite Pos2Z.inj_succ, Z.pow_succ_r by lia. lia.
  - reflexivity.
Qed.

Lemma bounded_grid m e :
  bounded 53 1024 m e = true ->
  (Zpos m < 2 ^ 53)%Z /\ (-1074 <= e <= 971)%Z.
Proof.
  unfold bounded, canonical_mantissa, fexp, emin.
  intros H. apply andb_true_iff in H as [Hc He].
  apply Z.eqb_eq in Hc. apply Z.leb_le in He.
  pose proof (digits2_pos_bound m) as Hd.
  assert (Hdig : (Zpos (digits2_pos m) <= 53)%Z) by lia.
  split; [|lia].
  eapply Z.lt_le_trans; [exact Hd|].
  apply Z.pow_le_mono_r; lia.
Qed.

(** Below a finite binary64 number, rounding does not overflow. *)
Lemma rnd_below_finite q x :
  B64.finite_float x = true -> 0 <= q -> q <= B64.F2Q x ->
  is_finite (B64.rnd q) = true.
Proof.
  intros Hx Hq Hqx.
  destruct (Qlt_le_dec 0 q) as [Hpos|Hle];
    [|rewrite rnd_zero by lra; reflexivity].
  destruct x as [s| | |s m e]; try discriminate.
  - simpl in Hqx. lra.
  - destruct s; [pose proof (F2Q_finite_neg m e); lra|].
    apply bounded_grid in Hx as [Hm He].
    rewrite F2Q_finite_pos in Hqx.
    destruct (round_pos_exact (B64.mag_value (Zpos m, e)) (Zpos m) e)
      as [Hfin _]; [lia|exact He|reflexivity|].
    apply (le_finite _ (B64.round_pos false (B64.mag_value (Zpos m, e))));
      [now apply rnd_nonneg| |exact Hfin].
    rewrite rnd_pos by exact Hpos. now apply round_pos_mono.
Qed.

(** ** Subtraction *)

Lemma F2Q_opp x : B64.F2Q (B64.opp x) == - B64.F2Q x.
Proof.
  destruct x as [s|s| |s m e]; cbn [B64.opp SFopp B64.F2Q]; try reflexivity.
  destruct s; cbn [negb cond_Zopp].
  - change (inject_Z (Z.opp (Zpos m))) with (inject_Z (- Zpos m)).
    rewrite inject_Z_opp. ring.
  - change (inject_Z (Z.opp (Zpos m))) with (inject_Z (- Zpos m)).
    rewrite inject_Z_opp. ring.
Qed.

Lemma is_finite_opp x : is_finite (B64.opp x) = is_finite x.
Proof. destruct x; reflexivity. Qed.

Lemma sub_spec x m q :
  is_finite x = true -> is_finite m = true ->
  q == B64.F2Q x - B64.F2Q m -> 0 <= q ->
  B64.sub x m <=f B64.rnd q /\ B64.rnd q <=f B64.sub x m.
Proof.
  intros Fx Fm Hq Hq0. unfold B64.sub.
  rewrite add_finite_val by (rewrite ?is_finite_opp; assumption).
  pose proof (F2Q_opp m) as Ho.
  split; apply rnd_mono; lra.
Qed.

(** ** [round(x, 2)] *)

Lemma rne_nonneg q : 0 <= q -> (0 <= B64.rne q)%Z.
Proof. intros H. now apply rne_ge. Qed.

Lemma round2_nonneg x : nonneg x -> nonneg (B64.round2 x).
Proof.
  intros Hx. destruct (nonneg_cases x Hx) as [[s ->]|[->|(p & e & ->)]];
    try exact Hx.
  unfold B64.round2.
  destruct (Z.eqb_spec
              (B64.rne (Qabs (B64.F2Q (S754_finite false p e)) * (100 # 1))) 0)
    as [_|Hne]; [reflexivity|].
  apply round_pos_nonneg.
  pose proof (mag_value_pos p e) as Hpos. rewrite <- F2Q_finite_pos in Hpos.
  assert (0 <= B64.rne (Qabs (B64.F2Q (S754_finite false p e)) * (100 # 1)))%Z.
  { apply rne_nonneg. rewrite Qabs_pos by lra. lra. }
  apply Qlt_shift_div_l; [reflexivity|]. rewrite Qmult_0_l.
  rewrite <- (Zlt_Qlt 0). lia.
Qed.

Lemma round2_mono x y : nonneg x -> x <=f y -> B64.round2 x <=f B64.round2 y.
Proof.
  intros Hx Hxy. pose proof (le_nonneg _ _ Hx Hxy) as Hy.
  destruct (nonneg_cases x Hx) as [[s ->]|[->|(p & e & ->)]].
  - apply (round2_nonneg y Hy).
  - destruct (nonneg_cases y Hy) as [[s ->]|[->|(p & e & ->)]];
      [discriminate|reflexivity|discriminate].
  - destruct (nonneg_cases y Hy) as [[s ->]|[->|(p' & e' & ->)]].
    + exfalso. cbn [float_val] in Hxy. apply xval_leb_fin in Hxy.
      pose proof (mag_value_pos p e) as Hpos.
      rewrite <- F2Q_finite_pos in Hpos. simpl B64.F2Q in Hxy at 2. lra.
    + apply le_pos_inf. now apply round2_nonneg.
    + cbn [float_val] in Hxy. apply xval_leb_fin in Hxy.
      pose proof (mag_value_pos p e) as Hpos.
      rewrite <- F2Q_finite_pos in Hpos.
      set (a := B64.F2Q (S754_finite false p e)) in *.
      set (b := B64.F2Q (S754_finite false p' e')) in *.
      assert (Hn : (B64.rne (Qabs a * (100 # 1)) <=
                    B64.rne (Qabs b * (100 # 1)))%Z).
      { apply rne_mono. rewrite !Qabs_pos by lra. lra. }
      assert (Hn0 : (0 <= B64.rne (Qabs a * (100 # 1)))%Z).
      { apply rne_nonneg. rewrite Qabs_pos by lra. lra. }
      unfold B64.round2. fold a b.
      destruct (Z.eqb_spec (B64.rne (Qabs a * (100 # 1))) 0) as [_|Hne1].
      * apply (round2_nonneg (S754_finite false p' e') Hy).
      * destruct (Z.eqb_spec (B64.rne (Qabs b * (100 # 1))) 0) as [E|_];
          [lia|].
        apply round_pos_mono.
        -- apply Qlt_shift_div_l; [reflexivity|]. rewrite Qmult_0_l.
           rewrite <- (Zlt_Qlt 0). lia.
        -- apply Qmult_le_compat_r; [|discriminate].
           rewrite <- Zle_Qle. exact Hn.
Qed.

End Rounding.

(* ===================================================================== *)
(** * Properties of compute_tax                                           *)
(* ===================================================================== *)

(** C1.  For income 145000 and the brackets
    [{min:0, max:50197, rate:0.15}, {min:50197, rate:0.2}], [compute_tax]
    returns total_tax 26490.15, the two breakdown entries with tax_paid
    7529.55 and 18960.6 in that order, and effective_rate 18.27. *)
Theorem compute_tax_test_scenario :
  compute_tax (PyFloat (B64.dec 145000 0)) test_brackets =
  inr (PyFloat (B64.dec 2649015 2),
       [ {| d_min := PyInt 0; d_max := Some (PyInt 50197);
            d_tax_paid := PyFloat (B64.dec 752955 2) |};
         {| d_min := PyInt 50197; d_max := None;
            d_tax_paid := PyFloat (B64.dec 189606 1) |} ],
       PyFloat (B64.dec 1827 2)).
Proof. vm_compute. reflexivity. Qed.
(** ** Comparisons of values *)

Lemma xval_leb_ltb_trans (a z b : xval) :
  xval_leb a z = true -> xval_leb z b = true -> xval_ltb b a = false.
Proof.
  destruct a as [| |qa|], z as [| |qz|], b as [| |qb|]; simpl;
    try reflexivity; try discriminate.
  intros Ha Hb. apply Qle_bool_iff in Ha. apply Qle_bool_iff in Hb.
  apply negb_false_iff. apply Qle_bool_iff. lra.
Qed.

Lemma xval_leb_not_ltb (a b : xval) :
  xval_leb a b = true -> xval_ltb b a = false.
Proof.
  destruct a as [| |qa|], b as [| |qb|]; simpl;
    try reflexivity; try discriminate.
  intros H. now rewrite H.
Qed.

Lemma bracket_loop_none_contributes income brackets st :
  Forall (fun b => contributes income b = false) brackets ->
  bracket_loop income brackets st = inr st.
Proof.
  induction 1 as [|b rest Hb _ IH]; simpl; [reflexivity|].
  unfold bracket_step. destruct st as [total details].
  unfold contributes in Hb. rewrite Hb.
  destruct (br_max b); simpl; apply IH.
Qed.

Lemma effective_rate_guard total income :
  py_le income (PyInt 0) = true ->
  effective_rate_of total income = inr (PyInt 0).
Proof.
  intros Hinc. unfold effective_rate_of, py_gt, py_lt.
  now rewrite (xval_leb_not_ltb _ _ Hinc).
Qed.

(** C2 (as amended).  For an income of at most 0 the division is never
    performed: whenever [compute_tax] returns, effective_rate is 0, whatever
    the brackets.  When moreover no bracket starts below zero, [compute_tax]
    returns total_tax 0, an empty breakdown and effective_rate 0. *)
Theorem compute_tax_nonpositive_income income data :
  py_le income (PyInt 0) = true ->
  (forall total details rate,
     compute_tax income data = inr (total, details, rate) ->
     rate = PyInt 0) /\
  (Forall (fun b => py_le (PyInt 0) (br_min b) = true) (tax_brackets data) ->
   compute_tax income data = inr (PyInt 0, [], PyInt 0)).
Proof.
  intros Hinc. split.
  - intros total details rate. unfold compute_tax.
    destruct (bracket_loop income (tax_brackets data) (PyInt 0, []))
      as [e|[total0 details0]]; simpl; [discriminate|].
    rewrite (effective_rate_guard total0 income Hinc). simpl.
    now intros [= _ _ <-].
  - intros Hmin. unfold compute_tax.
    rewrite bracket_loop_none_contributes.
    + simpl. now rewrite (effective_rate_guard (PyInt 0) income Hinc).
    + eapply Forall_impl; [|exact Hmin]. intros b Hb.
      unfold contributes, py_gt, py_lt.
      exact (xval_leb_ltb_trans _ _ _ Hinc Hb).
Qed.

Lemma compute_tax_nonpositive_income_witness :
  (forall total details rate,
     compute_tax (PyFloat (B64.dec (-500) 0)) test_brackets =
       inr (total, details, rate) ->
     rate = PyInt 0) /\
  compute_tax (PyFloat (B64.dec (-500) 0)) test_brackets =
    inr (PyInt 0, [], PyInt 0).
Proof.
  destruct (compute_tax_nonpositive_income (PyFloat (B64.dec (-500) 0))
              test_brackets) as [Hrate Hzero].
  - vm_compute. reflexivity.
  - split; [exact Hrate|]. apply Hzero. repeat constructor.
Defined.

(** C2 is not true of every bracket table: with a first bracket starting at
    -1000, an income of -500 is taxed 75. *)
Lemma nonpositive_income_taxed_counterexample :
  py_le (PyFloat (B64.dec (-500) 0)) (PyInt 0) = true /\
  compute_tax (PyFloat (B64.dec (-500) 0)) negative_min_brackets =
    inr (PyFloat (B64.dec 75 0),
         [ {| d_min := PyInt (-1000); d_max := Some (PyInt 50197);
              d_tax_paid := PyFloat (B64.dec 75 0) |} ],
         PyInt 0) /\
  py_eq (PyFloat (B64.dec 75 0)) (PyInt 0) = false.
Proof. vm_compute. repeat split. Qed.
(** ** The loop against the sum of unrounded amounts *)

Lemma bracket_step_unfold income total details b :
  bracket_step income (total, details) b =
  if contributes income b then
    tax <- unrounded_tax income b ;;
    total' <- py_add total tax ;;
    ret (total',
         details ++
         [{| d_min := br_min b; d_max := br_max b;
             d_tax_paid := match br_max b with
                           | Some _ => py_round2 tax
                           | None => py_round2 (py_round2 tax)
                           end |}])
  else ret (total, details).
Proof.
  unfold bracket_step, contributes, unrounded_tax, taxable_slice.
  destruct (br_max b) as [mx|]; destruct (py_gt income (br_min b));
    try reflexivity.
  - destruct (py_sub (py_min income mx) (br_min b)) as [e|slice];
      [reflexivity|]. simpl.
    destruct (py_mul slice (br_rate b)) as [e|tax]; reflexivity.
  - destruct (py_sub income (br_min b)) as [e|slice]; [reflexivity|]. simpl.
    destruct (py_mul slice (br_rate b)) as [e|tax]; reflexivity.
Qed.

Lemma bracket_loop_total income brackets :
  forall total details,
    (st <- bracket_loop income brackets (total, details) ;; ret (fst st)) =
    sum_unrounded income brackets total.
Proof.
  induction brackets as [|b rest IH]; intros total details;
    [reflexivity|].
  cbn [bracket_loop sum_unrounded]. rewrite bracket_step_unfold.
  destruct (contributes income b); simpl; [|apply IH].
  destruct (unrounded_tax income b) as [e|tax]; simpl; [reflexivity|].
  destruct (py_add total tax) as [e|total']; simpl; [reflexivity|].
  apply IH.
Qed.

(** C3.  The total returned by [compute_tax] is the sum of the unrounded
    per-bracket amounts (slice times rate, over the brackets entered, bounded
    or open-ended alike), rounded to two decimals once, after the loop; the
    rounded figures of the breakdown play no part in it.  Stated as an
    equation of outcomes, so it also says when a total is returned. *)
Theorem total_tax_rounds_unrounded_sum income data :
  total_of (compute_tax income data) =
  (s <- sum_unrounded income (tax_brackets data) (PyInt 0) ;;
   _ <- effective_rate_of s income ;;
   ret (py_round2 s)).
Proof.
  unfold compute_tax, total_of.
  rewrite <- (bracket_loop_total income (tax_brackets data) (PyInt 0) []).
  destruct (bracket_loop income (tax_brackets data) (PyInt 0, []))
    as [e|[total details]]; simpl; [reflexivity|].
  destruct (effective_rate_of total income); reflexivity.
Qed.

(** ** The breakdown *)

Lemma bracket_loop_details income brackets :
  forall total details total' details',
    bracket_loop income brackets (total, details) = inr (total', details') ->
    exists added,
      details' = details ++ added /\
      Forall2 (detail_for income) (filter (contributes income) brackets)
        added.
Proof.
  induction brackets as [|b rest IH]; intros total details total' details';
    cbn [bracket_loop filter].
  - intros [= <- <-]. exists []. split; [now rewrite app_nil_r|constructor].
  - rewrite bracket_step_unfold.
    destruct (contributes income b) eqn:Hc; simpl.
    + destruct (unrounded_tax income b) as [e|tax] eqn:Htax; simpl;
        [discriminate|].
      destruct (py_add total tax) as [e|total1]; simpl; [discriminate|].
      intros Hloop. apply IH in Hloop as (added & -> & Hall).
      eexists (_ :: added). split.
      * rewrite <- app_assoc. reflexivity.
      * constructor; [|exact Hall].
        repeat split; simpl. exists tax. split; [exact Htax|reflexivity].
    + intros Hloop. apply IH in Hloop as (added & -> & Hall).
      exists added. split; [reflexivity|exact Hall].
Qed.

(** C4 (as amended).  The breakdown holds exactly one entry per bracket whose
    lower bound the income exceeds, in bracket order, and none for the other
    brackets; the entry repeats the bracket's bounds and records the rounded
    tax of the bracket, which may be zero. *)
Theorem tax_details_one_per_entered_bracket income data total details rate :
  compute_tax income data = inr (total, details, rate) ->
  Forall2 (detail_for income)
    (filter (contributes income) (tax_brackets data)) details.
Proof.
  unfold compute_tax.
  destruct (bracket_loop income (tax_brackets data) (PyInt 0, []))
    as [e|[total0 details0]] eqn:Hloop; simpl; [discriminate|].
  destruct (effective_rate_of total0 income); simpl; [discriminate|].
  intros [= _ <- _].
  apply bracket_loop_details in Hloop as (added & -> & Hall). exact Hall.
Qed.

Lemma tax_details_one_per_entered_bracket_witness :
  Forall2 (detail_for (PyFloat (B64.dec 145000 0)))
    (filter (contributes (PyFloat (B64.dec 145000 0)))
       (tax_brackets test_brackets))
    [ {| d_min := PyInt 0; d_max := Some (PyInt 50197);
         d_tax_paid := PyFloat (B64.dec 752955 2) |};
      {| d_min := PyInt 50197; d_max := None;
         d_tax_paid := PyFloat (B64.dec 189606 1) |} ].
Proof.
  eapply tax_details_one_per_entered_bracket.
  vm_compute. reflexivity.
Defined.

(** C4 does not hold as stated: a bracket that is entered gets its entry
    even when its tax is zero.  In a table with a tax-free first band, an
    income of 5000 produces an entry with tax_paid 0; with the test table, an
    income of 0.01 produces an entry whose tax, 0.0015, is recorded as 0. *)
Lemma zero_tax_entry_counterexample :
  compute_tax (PyFloat (B64.dec 5000 0)) zero_rate_brackets =
    inr (PyFloat (S754_zero false),
         [ {| d_min := PyInt 0; d_max := Some (PyInt 10000);
              d_tax_paid := PyFloat (S754_zero false) |} ],
         PyFloat (S754_zero false)) /\
  compute_tax (PyFloat (B64.dec 1 2)) test_brackets =
    inr (PyFloat (S754_zero false),
         [ {| d_min := PyInt 0; d_max := Some (PyInt 50197);
              d_tax_paid := PyFloat (S754_zero false) |} ],
         PyFloat (B64.dec 15 0)) /\
  py_eq (PyFloat (S754_zero false)) (PyInt 0) = true.
Proof. vm_compute. repeat split. Qed.

(** The rounded figures of the breakdown are not what is summed: for an
    income of 46228 the entries are 2334.41 and 0.18, which add up to
    2334.59, and the total is 2334.6. *)
Example total_is_not_the_sum_of_rounded_entries :
  compute_tax (PyFloat (B64.dec 46228 0)) two_band_brackets =
    inr (PyFloat (B64.dec 23346 1),
         [ {| d_min := PyInt 0; d_max := Some (PyInt 46226);
              d_tax_paid := PyFloat (B64.dec 233441 2) |};
           {| d_min := PyInt 46226; d_max := None;
              d_tax_paid := PyFloat (B64.dec 18 2) |} ],
         PyFloat (B64.dec 505 2)) /\
  B64.round2 (B64.add (B64.dec 233441 2) (B64.dec 18 2)) = B64.dec 233459 2.
Proof. vm_compute. split; reflexivity. Qed.

Section Monotonicity.

Local Open Scope Q_scope.

(* ===================================================================== *)
(** * Monotonicity of compute_tax                                         *)
(* ===================================================================== *)

Lemma float_exact_val x : float_exact x = true -> val x = XFin (Qof x).
Proof.
  destruct x as [z|f]; [reflexivity|]. simpl. apply finite_val.
Qed.

Lemma exact_lt a b :
  float_exact a = true -> float_exact b = true ->
  py_lt a b = true -> Qof a < Qof b.
Proof.
  intros Ha Hb. unfold py_lt.
  rewrite (float_exact_val a Ha), (float_exact_val b Hb). simpl.
  intros H. apply negb_true_iff in H. apply Qnot_le_lt. intros Hc.
  apply Qle_bool_iff in Hc. congruence.
Qed.

Lemma exact_not_lt a b :
  float_exact a = true -> float_exact b = true ->
  py_lt a b = false -> Qof b <= Qof a.
Proof.
  intros Ha Hb. unfold py_lt.
  rewrite (float_exact_val a Ha), (float_exact_val b Hb). simpl.
  intros H. apply negb_false_iff in H. now apply Qle_bool_iff.
Qed.

Lemma exact_le a b :
  float_exact a = true -> float_exact b = true ->
  py_le a b = true -> Qof a <= Qof b.
Proof.
  intros Ha Hb. unfold py_le.
  rewrite (float_exact_val a Ha), (float_exact_val b Hb).
  apply xval_leb_fin.
Qed.

(** The float that an exact, non-negative number converts to. *)
Lemma as_float_exact x :
  float_exact x = true -> 0 <= Qof x ->
  exists f, as_float x = inr f /\ is_finite f = true /\ nonneg f /\
            B64.F2Q f == Qof x.
Proof.
  intros Hx H0. destruct x as [z|f].
  - simpl in Hx, H0. apply Z.ltb_lt in Hx.
    rewrite <- (Zle_Qle 0) in H0.
    assert (Hz : (0 <= z < 2 ^ 53)%Z) by lia.
    destruct (rnd_int_exact z Hz) as [Hfin Hv].
    exists (B64.rnd (inject_Z z)). simpl. rewrite (to_float_exact z Hz).
    repeat split; try assumption.
    apply rnd_nonneg. rewrite <- (Zle_Qle 0). lia.
  - exists f. simpl in *. repeat split; try assumption; try reflexivity.
    unfold nonneg. rewrite (finite_val f Hx). now apply xval_leb_fin.
Qed.

Lemma feq_rnd q1 q2 :
  0 <= q1 -> q1 == q2 -> B64.rnd q1 <=f B64.rnd q2 /\ B64.rnd q2 <=f B64.rnd q1.
Proof. intros H0 Heq. split; apply rnd_mono; lra. Qed.

(** The slice [a - m] of two exact numbers with [0 <= m <= a]. *)
Lemma py_sub_exact a m :
  float_exact a = true -> float_exact m = true ->
  0 <= Qof m -> Qof m <= Qof a ->
  exists s fs,
    py_sub a m = inr s /\ as_float s = inr fs /\
    fs <=f B64.rnd (Qof a - Qof m) /\ B64.rnd (Qof a - Qof m) <=f fs.
Proof.
  intros Ha Hm Hm0 Hma.
  destruct (as_float_exact a Ha) as (fa & Efa & Ffa & Nfa & Vfa); [lra|].
  destruct (as_float_exact m Hm Hm0) as (fm & Efm & Ffm & Nfm & Vfm).
  assert (Hfloat : float_op B64.sub a m = inr (PyFloat (B64.sub fa fm))).
  { unfold float_op. rewrite Efa, Efm. reflexivity. }
  assert (Hspec : B64.sub fa fm <=f B64.rnd (Qof a - Qof m) /\
                  B64.rnd (Qof a - Qof m) <=f B64.sub fa fm).
  { apply sub_spec; try assumption; lra. }
  destruct a as [za|xa]; [destruct m as [zm|xm]|];
    try (exists (PyFloat (B64.sub fa fm)), (B64.sub fa fm);
         split; [exact Hfloat|split; [reflexivity|exact Hspec]]).
  simpl in Ha, Hm, Hm0, Hma. apply Z.ltb_lt in Ha. apply Z.ltb_lt in Hm.
  rewrite <- (Zle_Qle 0) in Hm0. rewrite <- Zle_Qle in Hma.
  assert (Hd : (0 <= za - zm < 2 ^ 53)%Z) by lia.
  exists (PyInt (za - zm)), (B64.rnd (inject_Z (za - zm))).
  split; [reflexivity|]. split; [apply (to_float_exact _ Hd)|].
  apply feq_rnd.
  - rewrite <- (Zle_Qle 0). lia.
  - simpl. unfold Z.sub. rewrite inject_Z_plus, inject_Z_opp. ring.
Qed.

Lemma py_min_cases i mx :
  float_exact i = true -> float_exact mx = true ->
  (py_min i mx = mx /\ Qof mx <= Qof i) \/
  (py_min i mx = i /\ Qof i <= Qof mx).
Proof.
  intros Hi Hmx. unfold py_min.
  destruct (py_lt mx i) eqn:Hlt.
  - left. split; [reflexivity|].
    apply Qlt_le_weak. now apply exact_lt.
  - right. split; [reflexivity|]. now apply exact_not_lt.
Qed.


Lemma plausible_parts b :
  plausible_bracket b = true ->
  float_exact (br_min b) = true /\ 0 <= Qof (br_min b) /\
  (forall mx, br_max b = Some mx ->
     float_exact mx = true /\ Qof (br_min b) <= Qof mx) /\
  exists r, br_rate b = PyFloat r /\ is_finite r = true /\ nonneg r.
Proof.
  unfold plausible_bracket. intros H.
  apply andb_true_iff in H as [H Hrate].
  apply andb_true_iff in H as [H Hmax].
  apply andb_true_iff in H as [Hex Hmin].
  split; [exact Hex|]. split.
  { change 0 with (Qof (PyInt 0)). now apply exact_le. }
  split.
  - intros mx Emx. rewrite Emx in Hmax.
    apply andb_true_iff in Hmax as [Hmx Hle].
    split; [exact Hmx|]. now apply exact_le.
  - destruct (br_rate b) as [z|r]; [discriminate|].
    apply andb_true_iff in Hrate as [Hfin Hnn].
    exists r. repeat split; assumption.
Qed.

Lemma taxable_slice_top income b :
  taxable_slice income b = py_sub (slice_top income b) (br_min b).
Proof. unfold taxable_slice, slice_top. now destruct (br_max b). Qed.

Lemma slice_top_bounds i b :
  plausible_bracket b = true -> float_exact i = true ->
  contributes i b = true ->
  float_exact (slice_top i b) = true /\
  Qof (br_min b) <= Qof (slice_top i b) /\
  Qof (slice_top i b) <= Qof i.
Proof.
  intros Hb Hi Hc.
  destruct (plausible_parts b Hb) as (Hmn & Hmn0 & Hmx & _).
  assert (Hlt : Qof (br_min b) < Qof i) by (now apply exact_lt).
  unfold slice_top. destruct (br_max b) as [mx|].
  - destruct (Hmx mx eq_refl) as [Emx Hle].
    destruct (py_min_cases i mx Hi Emx) as [[-> H]|[-> H]];
      repeat split; try assumption; lra.
  - repeat split; try assumption; lra.
Qed.

Lemma slice_top_mono i1 i2 b :
  plausible_bracket b = true ->
  float_exact i1 = true -> float_exact i2 = true ->
  Qof i1 <= Qof i2 ->
  Qof (slice_top i1 b) <= Qof (slice_top i2 b).
Proof.
  intros Hb H1 H2 H12.
  destruct (plausible_parts b Hb) as (_ & _ & Hmx & _).
  unfold slice_top. destruct (br_max b) as [mx|]; [|exact H12].
  destruct (Hmx mx eq_refl) as [Emx _].
  destruct (py_min_cases i1 mx H1 Emx) as [[-> Ha]|[-> Ha]];
  destruct (py_min_cases i2 mx H2 Emx) as [[-> Hb']|[-> Hb']]; lra.
Qed.

(** The tax of a bracket that a finite income enters. *)
Lemma unrounded_tax_float fi b top :
  plausible_bracket b = true ->
  is_finite fi = true -> B64.finite_float top = true ->
  B64.F2Q fi <= B64.F2Q top ->
  contributes (PyFloat fi) b = true ->
  exists fs r,
    unrounded_tax (PyFloat fi) b = inr (PyFloat (B64.mul fs r)) /\
    br_rate b = PyFloat r /\
    fs <=f B64.rnd (Qof (slice_top (PyFloat fi) b) - Qof (br_min b)) /\
    B64.rnd (Qof (slice_top (PyFloat fi) b) - Qof (br_min b)) <=f fs /\
    nonneg fs /\ is_finite fs = true /\
    nonneg r /\ is_finite r = true.
Proof.
  intros Hb Ffi Htop Hle Hc.
  destruct (plausible_parts b Hb) as (Hmn & Hmn0 & _ & r & Er & Fr & Nr).
  destruct (slice_top_bounds (PyFloat fi) b Hb Ffi Hc) as (Ea & Hlo & Hhi).
  set (a := slice_top (PyFloat fi) b) in *.
  destruct (py_sub_exact a (br_min b) Ea Hmn Hmn0 Hlo)
    as (s & fs & Es & Efs & Hfs1 & Hfs2).
  assert (Hq0 : 0 <= Qof a - Qof (br_min b)) by lra.
  assert (Nfs : nonneg fs)
    by (eapply le_nonneg; [apply (rnd_nonneg _ Hq0)|exact Hfs2]).
  assert (Ffs : is_finite fs = true).
  { apply (le_finite _ _ Nfs Hfs1).
    apply (rnd_below_finite _ top Htop Hq0). simpl in Hhi. lra. }
  exists fs, r. repeat split; try assumption.
  unfold unrounded_tax. rewrite taxable_slice_top. fold a. rewrite Es, Er.
  cbn [bind]. destruct s as [z|f]; cbn [py_mul];
    unfold float_op; rewrite Efs; reflexivity.
Qed.

Lemma py_add_total total f t :
  total_view total f ->
  py_add total (PyFloat t) = inr (PyFloat (B64.add f t)).
Proof.
  intros [[[-> ->]| ->] _]; reflexivity.
Qed.

Lemma total_view_float f : B64.nonneg_grid f -> total_view (PyFloat f) f.
Proof. intros G. split; [now right|exact G]. Qed.

(** One turn of the loop for an income that enters the bracket. *)
Lemma bracket_step_enters fi b top total f details :
  plausible_bracket b = true ->
  is_finite fi = true -> B64.finite_float top = true ->
  B64.F2Q fi <= B64.F2Q top ->
  contributes (PyFloat fi) b = true ->
  total_view total f ->
  exists fs r details',
    bracket_step (PyFloat fi) (total, details) b =
      inr (PyFloat (B64.add f (B64.mul fs r)), details') /\
    br_rate b = PyFloat r /\
    fs <=f B64.rnd (Qof (slice_top (PyFloat fi) b) - Qof (br_min b)) /\
    B64.rnd (Qof (slice_top (PyFloat fi) b) - Qof (br_min b)) <=f fs /\
    nonneg fs /\ is_finite fs = true /\
    nonneg r /\ is_finite r = true.
Proof.
  intros Hb Ffi Htop Hle Hc Hview.
  destruct (unrounded_tax_float fi b top Hb Ffi Htop Hle Hc)
    as (fs & r & Etax & H).
  exists fs, r. eexists. split; [|exact H].
  rewrite bracket_step_unfold, Hc, Etax. cbn [bind].
  rewrite (py_add_total total f _ Hview). reflexivity.
Qed.

Lemma bracket_step_skips income b st :
  contributes income b = false -> bracket_step income st b = inr st.
Proof.
  intros Hc. destruct st as [total details].
  rewrite bracket_step_unfold, Hc. reflexivity.
Qed.

Lemma contributes_mono f1 f2 b :
  float_exact (br_min b) = true ->
  py_le (PyFloat f1) (PyFloat f2) = true ->
  contributes (PyFloat f1) b = true -> contributes (PyFloat f2) b = true.
Proof.
  intros _ Hle. unfold contributes, py_gt, py_lt. intros Hc.
  eapply xval_ltb_leb_trans; [exact Hc|exact Hle].
Qed.

Lemma finite_float_is_finite x :
  B64.finite_float x = true -> is_finite x = true.
Proof. destruct x; simpl; try discriminate; reflexivity. Qed.

(** An income that enters a plausible bracket is positive; below a finite
    income it is finite as well. *)
Lemma entering_income_finite f1 f2 b :
  plausible_bracket b = true ->
  py_le (PyFloat f1) (PyFloat f2) = true -> is_finite f2 = true ->
  contributes (PyFloat f1) b = true ->
  is_finite f1 = true /\ B64.F2Q f1 <= B64.F2Q f2.
Proof.
  intros Hb Hle F2 Hc.
  destruct (plausible_parts b Hb) as (Hmn & Hmn0 & _).
  assert (N1 : nonneg f1).
  { unfold nonneg. unfold contributes, py_gt, py_lt in Hc.
    rewrite (float_exact_val _ Hmn) in Hc. apply xval_ltb_leb in Hc.
    eapply xval_leb_trans; [|exact Hc]. now apply xval_leb_fin. }
  assert (F1 : is_finite f1 = true) by (apply (le_finite f1 f2); assumption).
  split; [exact F1|]. now apply le_F2Q.
Qed.

Lemma bracket_loop_mono f1 f2 :
  py_le (PyFloat f1) (PyFloat f2) = true ->
  B64.finite_float f2 = true ->
  forall brackets,
    forallb plausible_bracket brackets = true ->
    forall total1 details1 g1 total2 details2 g2,
      total_view total1 g1 -> total_view total2 g2 -> g1 <=f g2 ->
      exists total1' details1' g1' total2' details2' g2',
        bracket_loop (PyFloat f1) brackets (total1, details1) =
          inr (total1', details1') /\
        bracket_loop (PyFloat f2) brackets (total2, details2) =
          inr (total2', details2') /\
        total_view total1' g1' /\ total_view total2' g2' /\ g1' <=f g2'.
Proof.
  intros Hle Htop.
  pose proof (finite_float_is_finite f2 Htop) as F2.
  induction brackets as [|b rest IH];
    intros Hall total1 details1 g1 total2 details2 g2 V1 V2 Hg.
  - exists total1, details1, g1, total2, details2, g2.
    split; [reflexivity|]. split; [reflexivity|].
    split; [exact V1|]. split; [exact V2|exact Hg].
  - cbn [forallb] in Hall. apply andb_true_iff in Hall as [Hb Hrest].
    specialize (IH Hrest). cbn [bracket_loop].
    destruct (plausible_parts b Hb) as (Hmn & _).
    pose proof (proj2 V1) as G1. pose proof (proj2 V2) as G2.
    destruct (contributes (PyFloat f2) b) eqn:Hc2.
    + destruct (bracket_step_enters f2 b f2 total2 g2 details2 Hb F2 Htop
                  (Qle_refl _) Hc2 V2)
        as (fs2 & r2 & d2' & E2 & Er2 & Hs2a & Hs2b & Ns2 & Fs2 & Nr2 & Fr2).
      rewrite E2. cbn [bind].
      assert (Nt2 : nonneg (B64.mul fs2 r2))
        by (apply nonneg_grid_nonneg; now apply mul_grid).
      assert (G2' : B64.nonneg_grid (B64.add g2 (B64.mul fs2 r2)))
        by (apply add_grid; [now apply nonneg_grid_nonneg|exact Nt2]).
      destruct (contributes (PyFloat f1) b) eqn:Hc1.
      * destruct (entering_income_finite f1 f2 b Hb Hle F2 Hc1) as [F1 H12].
        destruct (bracket_step_enters f1 b f2 total1 g1 details1 Hb F1 Htop
                    H12 Hc1 V1)
          as (fs1 & r1 & d1' & E1 & Er1 & Hs1a & Hs1b & Ns1 & Fs1 & Nr1 & Fr1).
        rewrite E1. cbn [bind].
        assert (r1 = r2) by congruence. subst r2.
        assert (Hfs : fs1 <=f fs2).
        { eapply xval_leb_trans; [exact Hs1a|].
          eapply xval_leb_trans; [|exact Hs2b].
          destruct (slice_top_bounds (PyFloat f1) b Hb F1 Hc1) as (_ & Hlo & _).
          apply rnd_mono; [lra|].
          pose proof (slice_top_mono (PyFloat f1) (PyFloat f2) b Hb F1 F2 H12).
          lra. }
        eapply IH.
        -- apply total_view_float. apply add_grid;
             [now apply nonneg_grid_nonneg|].
           apply nonneg_grid_nonneg. now apply mul_grid.
        -- now apply total_view_float.
        -- apply add_mono; [now apply nonneg_grid_nonneg| |exact Hg|].
           ++ apply nonneg_grid_nonneg. now apply mul_grid.
           ++ now apply mul_mono.
      * rewrite (bracket_step_skips _ b (total1, details1) Hc1). cbn [bind].
        eapply IH; [exact V1|now apply total_view_float|].
        eapply xval_leb_trans; [exact Hg|]. now apply add_ge_l.
    + assert (Hc1 : contributes (PyFloat f1) b = false).
      { destruct (contributes (PyFloat f1) b) eqn:Hc1; [|reflexivity].
        rewrite (contributes_mono f1 f2 b Hmn Hle Hc1) in Hc2. discriminate. }
      rewrite (bracket_step_skips _ b (total1, details1) Hc1).
      rewrite (bracket_step_skips _ b (total2, details2) Hc2).
      cbn [bind]. eapply IH; eassumption.
Qed.

Lemma as_float_total total g : total_view total g -> as_float total = inr g.
Proof. intros [[[-> ->]| ->] _]; reflexivity. Qed.

Lemma py_truediv_float a fa fi :
  as_float a = inr fa -> B64.is_zero fi = false ->
  py_truediv a (PyFloat fi) = inr (PyFloat (B64.div fa fi)).
Proof.
  intros Ha Hz.
  assert (E : py_truediv a (PyFloat fi) =
              (x <- as_float a ;;
               y <- as_float (PyFloat fi) ;;
               if B64.is_zero y then raise ZeroDivisionError
               else ret (PyFloat (B64.div x y))))
    by (destruct a; reflexivity).
  rewrite E, Ha. unfold bind, as_float, ret. now rewrite Hz.
Qed.

Lemma effective_rate_returns total g fi :
  total_view total g ->
  exists rate, effective_rate_of total (PyFloat fi) = inr rate.
Proof.
  intros V. unfold effective_rate_of.
  destruct (py_gt (PyFloat fi) (PyInt 0)) eqn:Hpos; [|eexists; reflexivity].
  assert (Hz : B64.is_zero fi = false).
  { destruct fi; try reflexivity. discriminate Hpos. }
  rewrite (py_truediv_float total g fi (as_float_total total g V) Hz).
  unfold bind, py_mul, float_op, as_float, bind, ret.
  rewrite (to_float_exact 100) by lia. eexists. reflexivity.
Qed.

Lemma rounded_total_le total1 g1 total2 g2 :
  total_view total1 g1 -> total_view total2 g2 -> g1 <=f g2 ->
  py_le (py_round2 total1) (py_round2 total2) = true.
Proof.
  intros [[[-> ->]| ->] G1] [[[-> ->]| ->] G2] Hg; unfold py_le;
    cbn [py_round2 val].
  - reflexivity.
  - apply (round2_nonneg g2). now apply nonneg_grid_nonneg.
  - apply (round2_mono g1 (S754_zero false)); [|exact Hg].
    now apply nonneg_grid_nonneg.
  - apply round2_mono; [now apply nonneg_grid_nonneg|exact Hg].
Qed.

(** C5 (as amended).  For a table of plausible brackets (finite bounds with
    [0 <= min <= max], integers below 2^53, rates that are finite
    non-negative floats) and two incomes [i1 <= i2], the larger one a finite
    float, [compute_tax] returns for both and the total for [i1] is at most
    the total for [i2]. *)
Theorem total_tax_monotone data i1 i2 :
  forallb plausible_bracket (tax_brackets data) = true ->
  B64.finite_float i2 = true ->
  py_le (PyFloat i1) (PyFloat i2) = true ->
  exists t1 d1 r1 t2 d2 r2,
    compute_tax (PyFloat i1) data = inr (t1, d1, r1) /\
    compute_tax (PyFloat i2) data = inr (t2, d2, r2) /\
    py_le t1 t2 = true.
Proof.
  intros Hall Htop Hle.
  destruct (bracket_loop_mono i1 i2 Hle Htop (tax_brackets data) Hall
              (PyInt 0) [] (S754_zero false) (PyInt 0) [] (S754_zero false))
    as (t1 & d1 & g1 & t2 & d2 & g2 & E1 & E2 & V1 & V2 & Hg);
    try (split; [left; now split|exact I]); [reflexivity|].
  destruct (effective_rate_returns t1 g1 i1 V1) as [r1 Er1].
  destruct (effective_rate_returns t2 g2 i2 V2) as [r2 Er2].
  exists (py_round2 t1), d1, r1, (py_round2 t2), d2, r2.
  unfold compute_tax. rewrite E1, E2. cbn [bind]. rewrite Er1, Er2.
  repeat split. exact (rounded_total_le t1 g1 t2 g2 V1 V2 Hg).
Qed.

Lemma total_tax_monotone_witness :
  exists t1 d1 r1 t2 d2 r2,
    compute_tax (PyFloat (B64.dec 50000 0)) test_brackets = inr (t1, d1, r1) /\
    compute_tax (PyFloat (B64.dec 145000 0)) test_brackets = inr (t2, d2, r2) /\
    py_le t1 t2 = true.
Proof.
  apply total_tax_monotone; vm_compute; reflexivity.
Defined.

(** C5 does not hold for every bracket table.  With a negative rate, the
    income 2000 is taxed less (-200) than the income 1000 (-100).  With
    integer bounds above 2^53, the income 9007199254740996 is taxed 0.15 and
    the smaller income 9007199254740994 is taxed 0.3: the lower bound is
    rounded when it is subtracted from a float, and is exact when it is
    subtracted from the integer upper bound. *)
Lemma total_tax_not_monotone_counterexample :
  (py_le (PyFloat (B64.dec 1000 0)) (PyFloat (B64.dec 2000 0)) = true /\
   compute_tax (PyFloat (B64.dec 1000 0)) negative_rate_brackets =
     inr (PyFloat (B64.dec (-100) 0),
          [ {| d_min := PyInt 0; d_max := None;
               d_tax_paid := PyFloat (B64.dec (-100) 0) |} ],
          PyFloat (B64.dec (-10) 0)) /\
   compute_tax (PyFloat (B64.dec 2000 0)) negative_rate_brackets =
     inr (PyFloat (B64.dec (-200) 0),
          [ {| d_min := PyInt 0; d_max := None;
               d_tax_paid := PyFloat (B64.dec (-200) 0) |} ],
          PyFloat (B64.dec (-10) 0)) /\
   py_le (PyFloat (B64.dec (-100) 0)) (PyFloat (B64.dec (-200) 0)) = false) /\
  (py_le (PyFloat (B64.dec 9007199254740994 0))
         (PyFloat (B64.dec 9007199254740996 0)) = true /\
   compute_tax (PyFloat (B64.dec 9007199254740994 0)) huge_bound_brackets =
     inr (PyFloat (B64.dec 3 1),
          [ {| d_min := PyInt 9007199254740993;
               d_max := Some (PyInt 9007199254740994);
               d_tax_paid := PyFloat (B64.dec 3 1) |} ],
          PyFloat (S754_zero false)) /\
   compute_tax (PyFloat (B64.dec 9007199254740996 0)) huge_bound_brackets =
     inr (PyFloat (B64.dec 15 2),
          [ {| d_min := PyInt 9007199254740993;
               d_max := Some (PyInt 9007199254740994);
               d_tax_paid := PyFloat (B64.dec 15 2) |} ],
          PyFloat (S754_zero false)) /\
   py_le (PyFloat (B64.dec 3 1)) (PyFloat (B64.dec 15 2)) = false).
Proof. vm_compute. repeat split. Qed.

(** Nor does it hold when a bracket ends below its start: the income 11 is
    then taxed -0.5, the income 8 not at all. *)
Example inverted_bracket_not_monotone :
  compute_tax (PyFloat (B64.dec 8 0)) inverted_brackets =
    inr (PyInt 0, [], PyFloat (S754_zero false)) /\
  compute_tax (PyFloat (B64.dec 11 0)) inverted_brackets =
    inr (PyFloat (B64.dec (-5) 1),
         [ {| d_min := PyInt 10; d_max := Some (PyInt 5);
              d_tax_paid := PyFloat (B64.dec (-5) 1) |} ],
         PyFloat (B64.dec (-455) 2)) /\
  py_le (PyInt 0) (PyFloat (B64.dec (-5) 1)) = false.
Proof. vm_compute. repeat split. Qed.

(** An integer rate keeps the running total an integer, which need not be a
    float once it passes 2^53: the total 9007199254740993 of the smaller
    income is rounded down when the larger income adds 0.2 to it. *)
Example integer_rate_not_monotone :
  py_le (PyFloat (B64.dec 3002399751580333 0))
        (PyFloat (B64.dec 3002399751580335 0)) = true /\
  compute_tax (PyFloat (B64.dec 3002399751580333 0)) integer_rate_brackets =
    inr (PyInt 9007199254740993,
         [ {| d_min := PyInt 0; d_max := Some (PyInt 3002399751580331);
              d_tax_paid := PyInt 9007199254740993 |} ],
         PyFloat (B64.dec 300 0)) /\
  compute_tax (PyFloat (B64.dec 3002399751580335 0)) integer_rate_brackets =
    inr (PyFloat (B64.dec 9007199254740992 0),
         [ {| d_min := PyInt 0; d_max := Some (PyInt 3002399751580331);
              d_tax_paid := PyInt 9007199254740993 |};
           {| d_min := PyInt 3002399751580333; d_max := None;
              d_tax_paid := PyFloat (B64.dec 2 1) |} ],
         PyFloat (B64.dec 300 0)) /\
  py_le (PyInt 9007199254740993) (PyFloat (B64.dec 9007199254740992 0)) =
    false.
Proof. vm_compute. repeat split. Qed.

(** An infinite income turns the slice of the open-ended bracket into
    infinity, and infinity times a rate of zero is not a number. *)
Example infinite_income_not_monotone :
  py_le (PyFloat (B64.dec 20 0)) (PyFloat (S754_infinity false)) = true /\
  compute_tax (PyFloat (B64.dec 20 0)) zero_top_rate_brackets =
    inr (PyFloat (B64.dec 1 0),
         [ {| d_min := PyInt 0; d_max := Some (PyInt 10);
              d_tax_paid := PyFloat (B64.dec 1 0) |};
           {| d_min := PyInt 10; d_max := None;
              d_tax_paid := PyFloat (S754_zero false) |} ],
         PyFloat (B64.dec 5 0)) /\
  compute_tax (PyFloat (S754_infinity false)) zero_top_rate_brackets =
    inr (PyFloat S754_nan,
         [ {| d_min := PyInt 0; d_max := Some (PyInt 10);
              d_tax_paid := PyFloat (B64.dec 1 0) |};
           {| d_min := PyInt 10; d_max := None;
              d_tax_paid := PyFloat S754_nan |} ],
         PyFloat S754_nan) /\
  py_le (PyFloat (B64.dec 1 0)) (PyFloat S754_nan) = false.
Proof. vm_compute. repeat split. Qed.

End Monotonicity.

(* ===================================================================== *)
(** * Properties of fetch_tax_data                                        *)
(* ===================================================================== *)

(** Whatever [get_data] raises is in the tuple that the loop catches. *)
Lemma get_data_failures u e :
  get_data u = inl e -> is_request_exception e = true.
Proof.
  destruct u as [| |r|s]; simpl.
  - now intros [= <-].
  - now intros [= <-].
  - unfold raise_for_status.
    destruct ((400 <=? status_code r) && (status_code r <? 600));
      simpl; [|discriminate].
    now intros [= <-].
  - destruct ((400 <=? s) && (s <? 600)); now intros [= <-].
Qed.

(** [giveup] does not stop the loop on a transient failure. *)
Lemma transient_giveup e : transient e = true -> giveup e = false.
Proof.
  destruct e as [| | | |s|]; try discriminate; try reflexivity.
  unfold transient, giveup, exn_response. intros Hs.
  apply Z.leb_le in Hs. apply Z.ltb_ge. exact Hs.
Qed.

Lemma on_exception_failure cfg tax_year tries u sc tr e :
  get_data u = inl e ->
  on_exception cfg tax_year tries (u :: sc) tr =
  if giveup e || (Z.of_nat (S tries) =? tax_api_max_retries cfg)
  then Some (inl e, sc, tr ++ [EvGet (url_of cfg tax_year)])
  else on_exception cfg tax_year (S tries) sc
         ((tr ++ [EvGet (url_of cfg tax_year)]) ++ [EvSleep (expo tries)]).
Proof.
  intros Hfail.
  cbn [on_exception].
  rewrite Hfail, (get_data_failures u e Hfail). reflexivity.
Qed.

(** C7, amended.  What the retry loop does with one attempt, for every
    outcome of [requests.get].  The attempt is retried (the loop waits
    [expo], then makes the next attempt; at the last permitted attempt the
    failure is raised instead) when it fails with a network error, a
    timeout, an error status from 500 to 599, or, on a response without an
    error status, a body that is not JSON.  A response with a status from
    400 to 499 ends the loop at once with its [HTTPError], JSON or not.  A
    response without an error status whose body is JSON is no failure: its
    data is returned. *)
Theorem retried_unless_client_status cfg tax_year tries sc tr :
  let tr1 := tr ++ [EvGet (url_of cfg tax_year)] in
  let run u := on_exception cfg tax_year tries (u :: sc) tr in
  let raised e := Some (inl e, sc, tr1) in
  let retried e :=
    if Z.of_nat (S tries) =? tax_api_max_retries cfg then raised e
    else on_exception cfg tax_year (S tries) sc
           (tr1 ++ [EvSleep (expo tries)]) in
  run GetConnectionError = retried ConnectionError /\
  run GetTimeout = retried Timeout /\
  (forall r, 500 <= status_code r < 600 ->
     run (GetReturns r) = retried (HTTPError (status_code r))) /\
  (forall s, 500 <= s < 600 ->
     run (GetReturnsNotJSON s) = retried (HTTPError s)) /\
  (forall s, ~ 400 <= s < 600 ->
     run (GetReturnsNotJSON s) = retried JSONDecodeError) /\
  (forall r, 400 <= status_code r < 500 ->
     run (GetReturns r) = raised (HTTPError (status_code r))) /\
  (forall s, 400 <= s < 500 ->
     run (GetReturnsNotJSON s) = raised (HTTPError s)) /\
  (forall r, ~ 400 <= status_code r < 600 ->
     run (GetReturns r) = Some (inr (json r), sc, tr1)).
Proof.
  intros tr1 run raised retried. subst tr1 run raised retried.
  cbn [on_exception get_data raise bind]. unfold raise_for_status.
  repeat split.
  - intros r Hst.
    destruct (Z.leb_spec 400 (status_code r)); [|lia].
    destruct (Z.ltb_spec (status_code r) 600); [|lia].
    cbn [andb raise bind is_request_exception]. unfold giveup, exn_response.
    destruct (Z.ltb_spec (status_code r) 500); [lia|]. reflexivity.
  - intros s Hst.
    destruct (Z.leb_spec 400 s); [|lia].
    destruct (Z.ltb_spec s 600); [|lia].
    cbn [andb raise is_request_exception]. unfold giveup, exn_response.
    destruct (Z.ltb_spec s 500); [lia|]. reflexivity.
  - intros s Hst.
    destruct (Z.leb_spec 400 s), (Z.ltb_spec s 600); try lia; reflexivity.
  - intros r Hst.
    destruct (Z.leb_spec 400 (status_code r)); [|lia].
    destruct (Z.ltb_spec (status_code r) 600); [|lia].
    cbn [andb raise bind is_request_exception]. unfold giveup, exn_response.
    destruct (Z.ltb_spec (status_code r) 500); [|lia]. reflexivity.
  - intros s Hst.
    destruct (Z.leb_spec 400 s); [|lia].
    destruct (Z.ltb_spec s 600); [|lia].
    cbn [andb raise is_request_exception]. unfold giveup, exn_response.
    destruct (Z.ltb_spec s 500); [|lia]. reflexivity.
  - intros r Hst.
    destruct (Z.leb_spec 400 (status_code r)), (Z.ltb_spec (status_code r) 600);
      try lia; reflexivity.
Qed.

Lemma retried_unless_client_status_witness :
  on_exception example_config 2021 0
    [GetReturns (failing_response 503);
     GetReturns (ok_response single_bracket)] [] =
  on_exception example_config 2021 1
    [GetReturns (ok_response single_bracket)]
    (([] ++ [EvGet (url_of example_config 2021)]) ++ [EvSleep (expo 0)]) /\
  on_exception example_config 2021 0
    [GetReturnsNotJSON 200; GetReturns (ok_response single_bracket)] [] =
  on_exception example_config 2021 1
    [GetReturns (ok_response single_bracket)]
    (([] ++ [EvGet (url_of example_config 2021)]) ++ [EvSleep (expo 0)]) /\
  on_exception example_config 2021 0
    [GetReturns (failing_response 404);
     GetReturns (ok_response single_bracket)] [] =
  Some (inl (HTTPError 404), [GetReturns (ok_response single_bracket)],
        [] ++ [EvGet (url_of example_config 2021)]).
Proof.
  pose proof (retried_unless_client_status example_config 2021 0
                [GetReturns (ok_response single_bracket)] [])
    as (_ & _ & Hserver & _ & Hbody & Hclient & _ & _).
  split; [|split].
  - apply (Hserver (failing_response 503)). simpl. lia.
  - apply (Hbody 200). lia.
  - apply (Hclient (failing_response 404)). simpl. lia.
Defined.

(** C7 does not hold as stated: an attempt can fail although the network
    did not, nothing timed out and the status is no error.  A response with
    status 200 whose body is not JSON makes [response.json()] raise an
    exception that carries no response; [giveup] lets it pass and the
    attempt is retried, here twice, until the third attempt succeeds. *)
Lemma undecodable_body_retried_counterexample :
  get_data (GetReturnsNotJSON 200) = inl JSONDecodeError /\
  transient JSONDecodeError = false /\
  on_exception example_config 2021 0
    [GetReturnsNotJSON 200; GetReturnsNotJSON 200;
     GetReturns (ok_response single_bracket)] [] =
  Some (inr single_bracket, [],
        [EvGet (url_of example_config 2021); EvSleep 1;
         EvGet (url_of example_config 2021); EvSleep 2;
         EvGet (url_of example_config 2021)]).
Proof. vm_compute. repeat split. Qed.


(** The loop never makes more attempts than configured. *)
Lemma on_exception_attempts cfg tax_year :
  forall sc tries tr r sc' tr',
    on_exception cfg tax_year tries sc tr = Some (r, sc', tr') ->
    Z.of_nat tries < tax_api_max_retries cfg ->
    (Z.of_nat (List.length sc) - Z.of_nat (List.length sc')
       <= tax_api_max_retries cfg - Z.of_nat tries).
Proof.
  induction sc as [|u sc IH]; intros tries tr r sc' tr'; [discriminate|].
  cbn [on_exception List.length].
  destruct (get_data u) as [e|v].
  - destruct (is_request_exception e).
    + destruct (giveup e || (Z.of_nat (S tries) =? tax_api_max_retries cfg))
        eqn:Hstop.
      * intros [= _ <- _] Hlt. lia.
      * intros Hrec Hlt. apply orb_false_iff in Hstop as [_ Hne].
        apply Z.eqb_neq in Hne. apply IH in Hrec; lia.
    + intros [= _ <- _] Hlt. lia.
  - intros [= _ <- _] Hlt. lia.
Qed.

(** ** Cache lookups *)

Lemma find_app {A} (f : A -> bool) (l1 l2 : list A) :
  find f (l1 ++ l2) =
  match find f l1 with
  | Some x => Some x
  | None => find f l2
  end.
Proof.
  induction l1 as [|a l1 IH]; simpl; [reflexivity|].
  destruct (f a); [reflexivity|exact IH].
Qed.

Lemma lru_lookup_remove_same k c : lru_lookup k (lru_remove k c) = None.
Proof.
  unfold lru_lookup, lru_remove.
  induction c as [|[k' v] c IH]; simpl; [reflexivity|].
  destruct (k' =? k) eqn:Hk; simpl; [exact IH|]. now rewrite Hk.
Qed.

Lemma lru_lookup_remove_other k k' c :
  k' <> k -> lru_lookup k' (lru_remove k c) = lru_lookup k' c.
Proof.
  intros Hne. unfold lru_lookup, lru_remove.
  induction c as [|[k0 v] c IH]; simpl; [reflexivity|].
  destruct (Z.eqb_spec k0 k) as [->|Hk0]; simpl.
  - destruct (Z.eqb_spec k k'); [congruence|exact IH].
  - destruct (k0 =? k'); [reflexivity|exact IH].
Qed.

Lemma lru_lookup_touch k v c k' :
  lru_lookup k c = Some v ->
  lru_lookup k' (lru_remove k c ++ [(k, v)]) = lru_lookup k' c.
Proof.
  intros Hk. destruct (Z.eq_dec k' k) as [->|Hne].
  - rewrite Hk. unfold lru_lookup at 1. rewrite find_app.
    fold (lru_lookup k (lru_remove k c)).
    pose proof (lru_lookup_remove_same k c) as Hnone.
    unfold lru_lookup in Hnone.
    destruct (find (fun p => fst p =? k) (lru_remove k c)); [discriminate|].
    simpl. now rewrite Z.eqb_refl.
  - rewrite <- (lru_lookup_remove_other k k' c Hne).
    unfold lru_lookup. rewrite find_app.
    destruct (find (fun p => fst p =? k') (lru_remove k c)); [reflexivity|].
    simpl. apply Z.eqb_neq in Hne. rewrite Z.eqb_sym in Hne.
    now rewrite Hne.
Qed.

Lemma lru_lookup_set maxsize k v c c' :
  lru_setitem maxsize k v c = Some c' -> lru_lookup k c' = Some v.
Proof.
  unfold lru_setitem. destruct (maxsize <? 1); [discriminate|].
  intros [= <-]. unfold lru_lookup. rewrite find_app.
  match goal with |- context [find _ (lru_remove k ?l)] =>
    pose proof (lru_lookup_remove_same k l) as Hnone end.
  unfold lru_lookup in Hnone.
  match goal with |- context [find ?f (lru_remove k ?l)] =>
    destruct (find f (lru_remove k l)) end; [discriminate|].
  simpl. now rewrite Z.eqb_refl.
Qed.

Lemma fetch_hit cfg tax_year w data :
  lru_lookup tax_year (cache w) = Some data ->
  fetch_tax_data cfg tax_year w =
  Some (inr data,
        {| cache := lru_remove tax_year (cache w) ++ [(tax_year, data)];
           script := script w; trace := trace w |}).
Proof.
  intros Hhit. unfold fetch_tax_data, lru_getitem. now rewrite Hhit.
Qed.

(** C8.  When the data of [tax_year] is in the cache, [fetch_tax_data]
    returns it, sends no request and makes no retry (script and trace are
    untouched), and every key still maps to the same data afterwards; a
    second call from the resulting state returns the same data again, still
    without a request. *)
Theorem fetch_cache_hit cfg tax_year w data :
  lru_lookup tax_year (cache w) = Some data ->
  exists w1 w2,
    fetch_tax_data cfg tax_year w = Some (inr data, w1) /\
    script w1 = script w /\ trace w1 = trace w /\
    (forall k, lru_lookup k (cache w1) = lru_lookup k (cache w)) /\
    fetch_tax_data cfg tax_year w1 = Some (inr data, w2) /\
    script w2 = script w /\ trace w2 = trace w /\
    (forall k, lru_lookup k (cache w2) = lru_lookup k (cache w)).
Proof.
  intros Hhit.
  pose proof (fetch_hit cfg tax_year w data Hhit) as H1.
  set (w1 := {| cache := lru_remove tax_year (cache w) ++ [(tax_year, data)];
                script := script w; trace := trace w |}) in *.
  assert (Hsame : forall k, lru_lookup k (cache w1) = lru_lookup k (cache w))
    by (intros k; apply lru_lookup_touch; exact Hhit).
  assert (Hhit1 : lru_lookup tax_year (cache w1) = Some data)
    by (rewrite Hsame; exact Hhit).
  pose proof (fetch_hit cfg tax_year w1 data Hhit1) as H2.
  exists w1. eexists.
  split; [exact H1|]. split; [reflexivity|]. split; [reflexivity|].
  split; [exact Hsame|]. split; [exact H2|].
  split; [reflexivity|]. split; [reflexivity|].
  intros k. cbn [cache]. rewrite (lru_lookup_touch _ _ _ k Hhit1).
  apply Hsame.
Qed.

Lemma fetch_cache_hit_witness :
  exists w1 w2,
    let w := {| cache := [(2021, single_bracket)];
                script := [GetConnectionError]; trace := [] |} in
    fetch_tax_data example_config 2021 w = Some (inr single_bracket, w1) /\
    script w1 = script w /\ trace w1 = trace w /\
    (forall k, lru_lookup k (cache w1) = lru_lookup k (cache w)) /\
    fetch_tax_data example_config 2021 w1 = Some (inr single_bracket, w2) /\
    script w2 = script w /\ trace w2 = trace w /\
    (forall k, lru_lookup k (cache w2) = lru_lookup k (cache w)).
Proof.
  apply (fetch_cache_hit example_config 2021
           {| cache := [(2021, single_bracket)];
              script := [GetConnectionError]; trace := [] |} single_bracket).
  reflexivity.
Defined.

Lemma on_exception_recovers cfg tax_year r sc :
  get_data (GetReturns r) = inr (json r) ->
  forall fails tries tr,
    forallb fails_transiently fails = true ->
    Z.of_nat (tries + List.length fails) < tax_api_max_retries cfg ->
    exists tr',
      on_exception cfg tax_year tries (fails ++ GetReturns r :: sc) tr =
      Some (inr (json r), sc, tr').
Proof.
  intros Hok. induction fails as [|u fails IH]; intros tries tr Hall Hmax.
  - cbn [app on_exception]. rewrite Hok. eexists. reflexivity.
  - cbn [forallb] in Hall. apply andb_true_iff in Hall as [Hu Hall].
    unfold fails_transiently in Hu.
    destruct (get_data u) as [e|v] eqn:Hfail; [|discriminate].
    cbn [app]. rewrite (on_exception_failure cfg tax_year tries u _ tr e Hfail).
    rewrite (transient_giveup e Hu). cbn [List.length] in Hmax.
    destruct (Z.eqb_spec (Z.of_nat (S tries)) (tax_api_max_retries cfg));
      [lia|].
    cbn [negb orb]. apply IH; [exact Hall|lia].
Qed.

(** C9.  A call of [fetch_tax_data] that raises leaves the cache as it was,
    without an entry for the year; and when transient failures are followed,
    within the permitted number of attempts, by a successful attempt, the
    data of the successful response is what is returned and what the cache
    (of capacity at least 1) then holds for the year. *)
Theorem cache_filled_by_success_only cfg tax_year w :
  (forall e w',
     fetch_tax_data cfg tax_year w = Some (inl e, w') ->
     cache w' = cache w /\ lru_lookup tax_year (cache w') = None) /\
  (forall fails r sc,
     lru_lookup tax_year (cache w) = None ->
     script w = fails ++ GetReturns r :: sc ->
     forallb fails_transiently fails = true ->
     get_data (GetReturns r) = inr (json r) ->
     Z.of_nat (List.length fails) < tax_api_max_retries cfg ->
     1 <= cache_max_size cfg ->
     exists w',
       fetch_tax_data cfg tax_year w = Some (inr (json r), w') /\
       lru_lookup tax_year (cache w') = Some (json r) /\
       script w' = sc).
Proof.
  split.
  - intros e w'. unfold fetch_tax_data, lru_getitem.
    destruct (lru_lookup tax_year (cache w)) as [v|] eqn:Hlook;
      [discriminate|].
    destruct (on_exception cfg tax_year 0 (script w) (trace w))
      as [[[[e'|v] sc] tr]|]; try discriminate.
    intros [= _ <-]. split; [reflexivity|exact Hlook].
  - intros fails r sc Hmiss Hsc Hfails Hok Hmax Hsize.
    unfold fetch_tax_data, lru_getitem. rewrite Hmiss, Hsc.
    destruct (on_exception_recovers cfg tax_year r sc Hok fails 0%nat
                (trace w) Hfails Hmax) as [tr' ->].
    destruct (lru_setitem (cache_max_size cfg) tax_year (json r) (cache w))
      as [c|] eqn:Hset.
    + eexists. split; [reflexivity|]. split; [|reflexivity].
      simpl. eapply lru_lookup_set. exact Hset.
    + unfold lru_setitem in Hset.
      destruct (Z.ltb_spec (cache_max_size cfg) 1); [lia|discriminate].
Qed.
Lemma cache_filled_by_success_only_witness :
  (forall e w',
     fetch_tax_data example_config 2021
       (fresh_world [GetReturns (failing_response 503); GetTimeout;
                     GetReturns (ok_response single_bracket)]) =
       Some (inl e, w') ->
     cache w' = [] /\ lru_lookup 2021 (cache w') = None) /\
  exists w',
    fetch_tax_data example_config 2021
      (fresh_world [GetReturns (failing_response 503); GetTimeout;
                    GetReturns (ok_response single_bracket)]) =
      Some (inr single_bracket, w') /\
    lru_lookup 2021 (cache w') = Some single_bracket /\
    script w' = [].
Proof.
  pose proof (cache_filled_by_success_only example_config 2021
    (fresh_world [GetReturns (failing_response 503); GetTimeout;
                  GetReturns (ok_response single_bracket)])) as [Hfail Hok].
  split.
  - exact Hfail.
  - apply (Hok [GetReturns (failing_response 503); GetTimeout]
               (ok_response single_bracket) []);
      try reflexivity; simpl; lia.
Defined.

(* ===================================================================== *)
(** * Properties of calculate_tax                                         *)
(* ===================================================================== *)

(** The "missing parameters" answer is given exactly when one of the two
    values is falsy, and then nothing else happens. *)
Lemma calculate_tax_missing cfg annual_income tax_year w :
  truthy_arg (option_map PyFloat annual_income) &&
  truthy_arg (option_map PyInt tax_year) = false ->
  calculate_tax cfg annual_income tax_year w = Some (missing_parameters, w).
Proof.
  intros Hfalsy. unfold calculate_tax. now rewrite Hfalsy.
Qed.

Lemma calculate_tax_not_missing cfg annual_income tax_year w r w' :
  truthy_arg (option_map PyFloat annual_income) &&
  truthy_arg (option_map PyInt tax_year) = true ->
  calculate_tax cfg annual_income tax_year w = Some (r, w') ->
  r <> missing_parameters.
Proof.
  intros Htruthy. unfold calculate_tax. rewrite Htruthy. simpl.
  destruct annual_income as [income|], tax_year as [year|];
    try (simpl in Htruthy; rewrite ?andb_false_r in Htruthy; discriminate).
  destruct (negb (existsb (Z.eqb year) (supported_tax_years cfg))).
  - intros [= <- _]. discriminate.
  - destruct (fetch_tax_data cfg year w) as [[[e|data] w1]|];
      [| |discriminate].
    + intros [= <- _]. discriminate.
    + destruct (compute_tax (PyFloat income) data) as [e|[[t d] rt]];
        intros [= <- _]; discriminate.
Qed.

(** C6, at the input where the handler departs from it: a request with
    annual_income=0 and tax_year=2021 carries both parameters, yet it is
    answered with 400 and "Missing required parameters". *)
Theorem zero_income_answered_as_missing :
  calculate_tax example_config (Some (B64.dec 0 0)) (Some 2021)
    (fresh_world [GetReturns (ok_response test_brackets)]) =
  Some ({| status := 400;
           payload := ErrorBody "Missing required parameters" |},
        fresh_world [GetReturns (ok_response test_brackets)]).
Proof. vm_compute. reflexivity. Qed.

(** C10.  When annual_income is a zero or tax_year is 0, both being present,
    the answer is 400 with "Missing required parameters"; the cache, the
    upstream service and the trace are left as they were: no request is sent
    and no tax is computed. *)
Theorem zero_parameter_reported_missing cfg annual_income tax_year w :
  B64.is_zero annual_income = true \/ tax_year = 0 ->
  calculate_tax cfg (Some annual_income) (Some tax_year) w =
  Some ({| status := 400;
           payload := ErrorBody "Missing required parameters" |}, w).
Proof.
  intros Hzero. apply calculate_tax_missing. simpl.
  destruct Hzero as [Hinc| ->].
  - now rewrite Hinc.
  - simpl. apply andb_false_r.
Qed.

Lemma zero_parameter_reported_missing_witness :
  calculate_tax example_config (Some (S754_zero true)) (Some 2021)
    (fresh_world []) =
  Some ({| status := 400;
           payload := ErrorBody "Missing required parameters" |},
        fresh_world []).
Proof.
  apply zero_parameter_reported_missing. left. reflexivity.
Defined.

(** ** The repository's tests, replayed on the model *)

Example test_without_query_params :
  calculate_tax example_config None None (fresh_world []) =
  Some (missing_parameters, fresh_world []).
Proof. reflexivity. Qed.

Example test_with_wrong_year :
  calculate_tax example_config (Some (B64.dec 50000 0)) (Some 2006)
    (fresh_world []) =
  Some ({| status := 400;
           payload := ErrorBody
             "Unsupported tax year. Supported years are: 2019, 2020, 2021, 2022" |},
        fresh_world []).
Proof. vm_compute. reflexivity. Qed.

Example test_transient_error_and_recovery :
  calculate_tax example_config (Some (B64.dec 145000 0)) (Some 2021)
    (fresh_world [GetReturns (failing_response 500);
                  GetReturns (ok_response single_bracket)]) =
  Some ({| status := 200;
           payload := TaxBody (PyFloat (B64.dec 752955 2))
             [ {| d_min := PyInt 0; d_max := Some (PyInt 50197);
                  d_tax_paid := PyFloat (B64.dec 752955 2) |} ]
             (PyFloat (B64.dec 519 2)) |},
        {| cache := [(2021, single_bracket)];
           script := [];
           trace := [EvGet (url_of example_config 2021); EvSleep 1;
                     EvGet (url_of example_config 2021)] |}).
Proof. vm_compute. reflexivity. Qed.

Example client_error_is_not_retried :
  calculate_tax example_config (Some (B64.dec 145000 0)) (Some 2021)
    (fresh_world [GetReturns (failing_response 404);
                  GetReturns (ok_response single_bracket)]) =
  Some (internal_server_error,
        {| cache := [];
           script := [GetReturns (ok_response single_bracket)];
           trace := [EvGet (url_of example_config 2021)] |}).
Proof. vm_compute. reflexivity. Qed.

(** Zero income is something [compute_tax] itself is prepared for. *)
Example compute_tax_zero_income :
  compute_tax (PyFloat (B64.dec 0 0)) test_brackets =
  inr (PyInt 0, [], PyInt 0).
Proof. vm_compute. reflexivity. Qed.

(* ===================================================================== *)
(** * Further properties of calculate_tax                                 *)
(* ===================================================================== *)

Lemma truthy_request income year :
  B64.is_zero income = false -> year <> 0 ->
  truthy_arg (option_map PyFloat (Some income)) &&
  truthy_arg (option_map PyInt (Some year)) = true.
Proof.
  intros Hinc Hyear. simpl. rewrite Hinc.
  apply Z.eqb_neq in Hyear. now rewrite Hyear.
Qed.

Lemma supported_existsb year years :
  existsb (Z.eqb year) years = true <-> In year years.
Proof.
  rewrite existsb_exists. split.
  - intros (y & Hin & Heq). apply Z.eqb_eq in Heq. now subst.
  - intros Hin. exists year. split; [exact Hin|apply Z.eqb_refl].
Qed.

(** The handler past its first test, for present and non-zero parameters. *)
Lemma calculate_tax_validated cfg income year w :
  B64.is_zero income = false -> year <> 0 ->
  calculate_tax cfg (Some income) (Some year) w =
  if negb (existsb (Z.eqb year) (supported_tax_years cfg))
  then Some (unsupported_year cfg, w)
  else
    match fetch_tax_data cfg year w with
    | None => None
    | Some (inl _, w') => Some (internal_server_error, w')
    | Some (inr data, w') =>
        match compute_tax (PyFloat income) data with
        | inr (total_tax, tax_details, effective_rate) =>
            Some ({| status := 200;
                     payload := TaxBody total_tax tax_details
                                  effective_rate |}, w')
        | inl _ => Some (internal_server_error, w')
        end
    end.
Proof.
  intros Hinc Hyear. unfold calculate_tax.
  now rewrite (truthy_request income year Hinc Hyear).
Qed.

(** X1.  A year outside the configured list is answered with 400 and a
    message that enumerates the supported years, before anything is fetched:
    cache, upstream and trace are as they were. *)
Theorem unsupported_year_rejected cfg income year w :
  B64.is_zero income = false -> year <> 0 ->
  ~ In year (supported_tax_years cfg) ->
  calculate_tax cfg (Some income) (Some year) w =
  Some ({| status := 400;
           payload := ErrorBody
             ("Unsupported tax year. Supported years are: " ++
              String.concat ", " (map str (supported_tax_years cfg))) |},
        w).
Proof.
  intros Hinc Hyear Hnot.
  rewrite (calculate_tax_validated cfg income year w Hinc Hyear).
  destruct (existsb (Z.eqb year) (supported_tax_years cfg)) eqn:Hex;
    [|reflexivity].
  apply supported_existsb in Hex. contradiction.
Qed.

Lemma unsupported_year_rejected_witness :
  calculate_tax example_config (Some (B64.dec 50000 0)) (Some 2006)
    (fresh_world [GetTimeout]) =
  Some ({| status := 400;
           payload := ErrorBody
             ("Unsupported tax year. Supported years are: " ++
              String.concat ", "
                (map str (supported_tax_years example_config))) |},
        fresh_world [GetTimeout]).
Proof.
  apply unsupported_year_rejected.
  - reflexivity.
  - discriminate.
  - simpl. intros [H|[H|[H|[H|[]]]]]; discriminate H.
Defined.

(** X2.  For a supported year, whatever exception [fetch_tax_data] or
    [compute_tax] raises, the answer is 500 with the fixed body
    "Internal Server Error", and the world is the one the fetch left. *)
Theorem failure_answered_with_generic_500 cfg income year w :
  B64.is_zero income = false -> year <> 0 ->
  In year (supported_tax_years cfg) ->
  (forall e w',
     fetch_tax_data cfg year w = Some (inl e, w') ->
     calculate_tax cfg (Some income) (Some year) w =
     Some ({| status := 500; payload := ErrorBody "Internal Server Error" |},
           w')) /\
  (forall data e w',
     fetch_tax_data cfg year w = Some (inr data, w') ->
     compute_tax (PyFloat income) data = inl e ->
     calculate_tax cfg (Some income) (Some year) w =
     Some ({| status := 500; payload := ErrorBody "Internal Server Error" |},
           w')).
Proof.
  intros Hinc Hyear Hin.
  rewrite (calculate_tax_validated cfg income year w Hinc Hyear).
  apply supported_existsb in Hin. rewrite Hin. cbn [negb].
  split.
  - intros e w' ->. reflexivity.
  - intros data e w' -> ->. reflexivity.
Qed.

Lemma failure_answered_with_generic_500_witness :
  calculate_tax example_config (Some (B64.dec 1 0)) (Some 2021)
    (fresh_world [GetReturns (failing_response 404)]) =
  Some ({| status := 500; payload := ErrorBody "Internal Server Error" |},
        {| cache := []; script := [];
           trace := [EvGet (url_of example_config 2021)] |}) /\
  calculate_tax example_config (Some (B64.dec 1 0)) (Some 2021)
    (fresh_world [GetReturns (ok_response overflowing_brackets)]) =
  Some ({| status := 500; payload := ErrorBody "Internal Server Error" |},
        {| cache := [(2021, overflowing_brackets)]; script := [];
           trace := [EvGet (url_of example_config 2021)] |}).
Proof.
  destruct (failure_answered_with_generic_500 example_config (B64.dec 1 0)
              2021 (fresh_world [GetReturns (failing_response 404)]))
    as [Hfetch _]; [reflexivity|discriminate|simpl; tauto|].
  destruct (failure_answered_with_generic_500 example_config (B64.dec 1 0)
              2021
              (fresh_world [GetReturns (ok_response overflowing_brackets)]))
    as [_ Hcompute]; [reflexivity|discriminate|simpl; tauto|].
  split.
  - apply (Hfetch (HTTPError 404)). reflexivity.
  - apply (Hcompute overflowing_brackets OverflowError). 
    + reflexivity.
    + vm_compute. reflexivity.
Defined.

(** X3.  A 200 answer is given only for present, non-zero parameters and a
    supported year, and it carries exactly what [compute_tax] returns for
    the requested income on the data that [fetch_tax_data] returned for the
    requested year. *)
Theorem ok_answer_inversion cfg annual_income tax_year w r w' :
  calculate_tax cfg annual_income tax_year w = Some (r, w') ->
  status r = 200 ->
  exists income year data total details rate,
    annual_income = Some income /\ tax_year = Some year /\
    B64.is_zero income = false /\ year <> 0 /\
    In year (supported_tax_years cfg) /\
    fetch_tax_data cfg year w = Some (inr data, w') /\
    compute_tax (PyFloat income) data = inr (total, details, rate) /\
    payload r = TaxBody total details rate.
Proof.
  unfold calculate_tax.
  destruct (truthy_arg (option_map PyFloat annual_income) &&
            truthy_arg (option_map PyInt tax_year)) eqn:Htruthy;
    cbn [negb]; [|intros [= <- _]; discriminate].
  destruct annual_income as [income|], tax_year as [year|];
    try (intros [= <- _]; discriminate).
  apply andb_true_iff in Htruthy as [Hinc Hyear]. simpl in Hinc, Hyear.
  apply negb_true_iff in Hinc. apply negb_true_iff, Z.eqb_neq in Hyear.
  destruct (existsb (Z.eqb year) (supported_tax_years cfg)) eqn:Hex;
    cbn [negb]; [|intros [= <- _]; discriminate].
  apply supported_existsb in Hex.
  destruct (fetch_tax_data cfg year w) as [[[e|data] w1]|] eqn:Hfetch;
    [intros [= <- _]; discriminate| |discriminate].
  destruct (compute_tax (PyFloat income) data)
    as [e|[[total details] rate]] eqn:Hcomp;
    [intros [= <- _]; discriminate|].
  intros [= <- <-] _.
  exists income, year, data, total, details, rate.
  split; [reflexivity|]. split; [reflexivity|]. split; [exact Hinc|].
  split; [exact Hyear|]. split; [exact Hex|].
  split; [exact Hfetch|]. split; [exact Hcomp|reflexivity].
Qed.

Lemma ok_answer_inversion_witness :
  exists income year data total details rate,
    Some (B64.dec 145000 0) = Some income /\ Some 2021 = Some year /\
    B64.is_zero income = false /\ year <> 0 /\
    In year (supported_tax_years example_config) /\
    fetch_tax_data example_config year
      (fresh_world [GetReturns (ok_response test_brackets)]) =
      Some (inr data,
            {| cache := [(2021, test_brackets)]; script := [];
               trace := [EvGet (url_of example_config 2021)] |}) /\
    compute_tax (PyFloat income) data = inr (total, details, rate) /\
    payload
      {| status := 200;
         payload := TaxBody (PyFloat (B64.dec 2649015 2))
           [ {| d_min := PyInt 0; d_max := Some (PyInt 50197);
                d_tax_paid := PyFloat (B64.dec 752955 2) |};
             {| d_min := PyInt 50197; d_max := None;
                d_tax_paid := PyFloat (B64.dec 189606 1) |} ]
           (PyFloat (B64.dec 1827 2)) |} = TaxBody total details rate.
Proof.
  eapply (ok_answer_inversion example_config (Some (B64.dec 145000 0))
            (Some 2021)
            (fresh_world [GetReturns (ok_response test_brackets)])).
  - vm_compute. reflexivity.
  - reflexivity.
Defined.

(** X4.  The handler has four answers and no other: the two fixed 400
    bodies, the fixed 500 body, and a 200 with a tax result; an error answer
    never carries anything of the exception behind it. *)
Theorem answers_of_calculate_tax cfg annual_income tax_year w r w' :
  calculate_tax cfg annual_income tax_year w = Some (r, w') ->
  r = {| status := 400; payload := ErrorBody "Missing required parameters" |}
  \/ r = {| status := 400;
            payload := ErrorBody
              ("Unsupported tax year. Supported years are: " ++
               String.concat ", " (map str (supported_tax_years cfg))) |}
  \/ r = {| status := 500; payload := ErrorBody "Internal Server Error" |}
  \/ exists total details rate,
       r = {| status := 200; payload := TaxBody total details rate |}.
Proof.
  unfold calculate_tax.
  destruct (negb (truthy_arg (option_map PyFloat annual_income) &&
                  truthy_arg (option_map PyInt tax_year)));
    [intros [= <- _]; now left|].
  destruct annual_income as [income|], tax_year as [year|];
    try (intros [= <- _]; now left).
  destruct (negb (existsb (Z.eqb year) (supported_tax_years cfg)));
    [intros [= <- _]; right; now left|].
  destruct (fetch_tax_data cfg year w) as [[[e|data] w1]|];
    [intros [= <- _]; right; right; now left| |discriminate].
  destruct (compute_tax (PyFloat income) data) as [e|[[total details] rate]];
    intros [= <- _]; right; right; [now left|right].
  now exists total, details, rate.
Qed.

Lemma answers_of_calculate_tax_witness :
  internal_server_error =
    {| status := 400; payload := ErrorBody "Missing required parameters" |}
  \/ internal_server_error =
     {| status := 400;
        payload := ErrorBody
          ("Unsupported tax year. Supported years are: " ++
           String.concat ", "
             (map str (supported_tax_years example_config))) |}
  \/ internal_server_error =
     {| status := 500; payload := ErrorBody "Internal Server Error" |}
  \/ exists total details rate,
       internal_server_error =
       {| status := 200; payload := TaxBody total details rate |}.
Proof.
  apply (answers_of_calculate_tax example_config (Some (B64.dec 1 0))
           (Some 2021) (fresh_world [GetReturns (failing_response 404)])
           internal_server_error
           {| cache := []; script := [];
              trace := [EvGet (url_of example_config 2021)] |}).
  vm_compute. reflexivity.
Defined.

(* ===================================================================== *)
(** * Further properties of compute_tax                                   *)
(* ===================================================================== *)

(** X5.  The effective rate is computed from the running sum before that
    sum is rounded: with [s] the sum of the unrounded amounts, the returned
    total is [round(s, 2)] and the returned rate is the one of [s], not the
    one of the rounded total. *)
Theorem effective_rate_uses_unrounded_sum income data total details rate :
  compute_tax income data = inr (total, details, rate) ->
  exists s,
    sum_unrounded income (tax_brackets data) (PyInt 0) = inr s /\
    total = py_round2 s /\
    effective_rate_of s income = inr rate.
Proof.
  unfold compute_tax.
  pose proof (bracket_loop_total income (tax_brackets data) (PyInt 0) [])
    as Hsum.
  destruct (bracket_loop income (tax_brackets data) (PyInt 0, []))
    as [e|[s details0]]; cbn [bind] in *; [discriminate|].
  destruct (effective_rate_of s income) as [e|rate0] eqn:Hrate;
    cbn [bind]; [discriminate|].
  intros [= <- _ <-]. exists s. repeat split; [|exact Hrate].
  symmetry. exact Hsum.
Qed.

Lemma effective_rate_uses_unrounded_sum_witness :
  exists s,
    sum_unrounded (PyFloat (B64.dec 4 2)) (tax_brackets test_brackets)
      (PyInt 0) = inr s /\
    PyFloat (B64.dec 1 2) = py_round2 s /\
    effective_rate_of s (PyFloat (B64.dec 4 2)) =
      inr (PyFloat (B64.dec 15 0)).
Proof.
  apply (effective_rate_uses_unrounded_sum (PyFloat (B64.dec 4 2))
           test_brackets (PyFloat (B64.dec 1 2))
           [ {| d_min := PyInt 0; d_max := Some (PyInt 50197);
                d_tax_paid := PyFloat (B64.dec 1 2) |} ]
           (PyFloat (B64.dec 15 0))).
  vm_compute. reflexivity.
Defined.

(** For an income of 0.04 the total is 0.01 and the rate 15.0; the rate of
    the rounded total would be 25.0. *)
Example rate_of_rounded_total_differs :
  compute_tax (PyFloat (B64.dec 4 2)) test_brackets =
    inr (PyFloat (B64.dec 1 2),
         [ {| d_min := PyInt 0; d_max := Some (PyInt 50197);
              d_tax_paid := PyFloat (B64.dec 1 2) |} ],
         PyFloat (B64.dec 15 0)) /\
  effective_rate_of (PyFloat (B64.dec 1 2)) (PyFloat (B64.dec 4 2)) =
    inr (PyFloat (B64.dec 25 0)).
Proof. vm_compute. split; reflexivity. Qed.

(** ** No bracket entered *)

Lemma positive_float_shape f :
  py_gt (PyFloat f) (PyInt 0) = true ->
  f = S754_infinity false \/ exists m e, f = S754_finite false m e.
Proof.
  unfold py_gt, py_lt. cbn [val].
  destruct f as [s|[|]| |[|] m e]; cbn [float_val xval_ltb];
    try discriminate; eauto.
  intros H. apply negb_true_iff in H.
  assert (Hle : (B64.F2Q (S754_finite true m e) <= inject_Z 0)%Q)
    by (apply Qlt_le_weak, F2Q_finite_neg).
  apply Qle_bool_iff in Hle. congruence.
Qed.

Lemma to_float_100 :
  exists m e, to_float 100 = inr (S754_finite false m e).
Proof. eexists _, _. vm_compute. reflexivity. Qed.

Lemma effective_rate_of_zero_total income :
  effective_rate_of (PyInt 0) income =
  inr (if py_gt income (PyInt 0) then PyFloat (S754_zero false)
       else PyInt 0).
Proof.
  unfold effective_rate_of.
  destruct (py_gt income (PyInt 0)) eqn:Hpos; [|reflexivity].
  destruct to_float_100 as (m100 & e100 & E100).
  destruct income as [y|f].
  - assert (Hy : y <> 0).
    { intros ->. discriminate Hpos. }
    apply Z.eqb_neq in Hy.
    assert (Hneg : (y <? 0) = false).
    { apply Z.ltb_ge. unfold py_gt, py_lt in Hpos. simpl in Hpos.
      apply negb_true_iff in Hpos.
      destruct (Z.le_gt_cases 0 y) as [H|H]; [exact H|].
      assert (Hle : (inject_Z y <= inject_Z 0)%Q)
        by (rewrite <- Zle_Qle; lia).
      apply Qle_bool_iff in Hle. congruence. }
    cbn [py_truediv]. rewrite Hy. cbn [Z.eqb]. rewrite Hneg.
    unfold ret, bind. cbn [py_mul]. unfold float_op, as_float, bind, ret.
    rewrite E100. reflexivity.
  - destruct (positive_float_shape f Hpos) as [->|(m & e & ->)];
      cbn [py_truediv as_float];
      change (to_float 0) with (@inr exn _ (S754_zero false));
      unfold ret, bind; cbn [B64.is_zero B64.div B64.sign_of xorb py_mul];
      unfold float_op, as_float, bind, ret; rewrite E100; reflexivity.
Qed.

(** X6.  When the income exceeds the lower bound of no bracket (an empty
    table, an income below every bracket, an income that is not a number),
    [compute_tax] returns the integer 0 as total and an empty breakdown; the
    rate is the float 0.0 when the income is positive and the integer 0
    otherwise.  No exception is possible. *)
Theorem compute_tax_no_bracket_entered income data :
  Forall (fun b => py_gt income (br_min b) = false) (tax_brackets data) ->
  compute_tax income data =
  inr (PyInt 0, [],
       if py_gt income (PyInt 0) then PyFloat (S754_zero false)
       else PyInt 0).
Proof.
  intros Hnone. unfold compute_tax.
  rewrite (bracket_loop_none_contributes income (tax_brackets data)
             (PyInt 0, []) Hnone).
  cbn [bind]. rewrite effective_rate_of_zero_total. reflexivity.
Qed.

Lemma compute_tax_no_bracket_entered_witness :
  compute_tax (PyFloat S754_nan) test_brackets = inr (PyInt 0, [], PyInt 0) /\
  compute_tax (PyFloat (B64.dec 8 0)) inverted_brackets =
    inr (PyInt 0, [], PyFloat (S754_zero false)).
Proof.
  split.
  - apply (compute_tax_no_bracket_entered (PyFloat S754_nan) test_brackets).
    repeat constructor.
  - apply (compute_tax_no_bracket_entered (PyFloat (B64.dec 8 0))
             inverted_brackets).
    repeat constructor.
Defined.

(** ** Floats only *)

Lemma float_bracket_parts b :
  float_bracket b = true ->
  exists mn r,
    br_min b = PyFloat mn /\ br_rate b = PyFloat r /\
    (br_max b = None \/ exists mx, br_max b = Some (PyFloat mx)).
Proof.
  unfold float_bracket.
  destruct (br_min b) as [z|mn]; [discriminate|].
  destruct (br_rate b) as [z|r]; [discriminate|].
  destruct (br_max b) as [[z|mx]|]; [discriminate| |]; intros _;
    exists mn, r; repeat split; eauto.
Qed.

Lemma unrounded_tax_of_floats income b :
  float_bracket b = true ->
  exists t, unrounded_tax (PyFloat income) b = inr (PyFloat t).
Proof.
  intros Hb. destruct (float_bracket_parts b Hb) as (mn & r & Emn & Er & Emx).
  unfold unrounded_tax, taxable_slice. rewrite Emn, Er.
  destruct Emx as [->|[mx ->]].
  - eexists. reflexivity.
  - unfold py_min. destruct (py_lt (PyFloat mx) (PyFloat income));
      eexists; reflexivity.
Qed.

Lemma bracket_loop_of_floats income brackets :
  forallb float_bracket brackets = true ->
  forall total details,
    (total = PyInt 0 \/ exists g, total = PyFloat g) ->
    exists total' details',
      bracket_loop (PyFloat income) brackets (total, details) =
        inr (total', details') /\
      (total' = PyInt 0 \/ exists g, total' = PyFloat g).
Proof.
  induction brackets as [|b rest IH]; intros Hall total details Htotal.
  - exists total, details. split; [reflexivity|exact Htotal].
  - cbn [forallb] in Hall. apply andb_true_iff in Hall as [Hb Hrest].
    cbn [bracket_loop]. rewrite bracket_step_unfold.
    destruct (contributes (PyFloat income) b).
    + destruct (unrounded_tax_of_floats income b Hb) as [t ->].
      cbn [bind].
      assert (Hadd : exists g, py_add total (PyFloat t) = inr (PyFloat g)).
      { destruct Htotal as [->|[g ->]]; eexists; reflexivity. }
      destruct Hadd as [g ->]. cbn [bind]. apply (IH Hrest). right. eauto.
    + cbn [bind]. apply (IH Hrest). exact Htotal.
Qed.

(** X7.  On a float income and a table whose entries are all floats,
    [compute_tax] raises nothing: float arithmetic does not raise, and the
    one division is guarded. *)
Theorem compute_tax_of_floats_returns income data :
  forallb float_bracket (tax_brackets data) = true ->
  exists total details rate,
    compute_tax (PyFloat income) data = inr (total, details, rate).
Proof.
  intros Hall.
  destruct (bracket_loop_of_floats income (tax_brackets data) Hall
              (PyInt 0) [] (or_introl eq_refl))
    as (total & details & Eloop & Htotal).
  unfold compute_tax. rewrite Eloop. cbn [bind].
  assert (Hrate : exists rate,
            effective_rate_of total (PyFloat income) = inr rate).
  { destruct Htotal as [->|[g ->]].
    - rewrite effective_rate_of_zero_total. eauto.
    - unfold effective_rate_of.
      destruct (py_gt (PyFloat income) (PyInt 0)) eqn:Hpos; [|eauto].
      assert (Hz : B64.is_zero income = false)
        by (destruct (positive_float_shape income Hpos) as [->|(m & e & ->)];
            reflexivity).
      rewrite (py_truediv_float (PyFloat g) g income eq_refl Hz).
      destruct to_float_100 as (m100 & e100 & E100).
      cbn [bind py_mul]. unfold float_op, as_float, bind, ret.
      rewrite E100. eauto. }
  destruct Hrate as [rate ->]. cbn [bind]. eauto.
Qed.

Lemma compute_tax_of_floats_returns_witness :
  exists total details rate,
    compute_tax (PyFloat (S754_infinity false))
      {| tax_brackets :=
           [ {| br_min := PyFloat (B64.dec 0 0);
                br_max := Some (PyFloat (B64.dec 50197 0));
                br_rate := PyFloat (B64.dec 15 2) |};
             {| br_min := PyFloat (B64.dec 50197 0); br_max := None;
                br_rate := PyFloat (B64.dec 0 0) |} ] |} =
    inr (total, details, rate).
Proof.
  apply compute_tax_of_floats_returns. reflexivity.
Defined.

(** With an integer in the table the statement fails: a rate of 10^400
    cannot be converted to a float. *)
Example compute_tax_overflow_error :
  compute_tax (PyFloat (B64.dec 1 0)) overflowing_brackets =
  inl OverflowError.
Proof. vm_compute. reflexivity. Qed.


(** ** The breakdown and the income *)

Lemma contributes_le i1 i2 b :
  py_le i1 i2 = true ->
  contributes i1 b = true -> contributes i2 b = true.
Proof.
  unfold contributes, py_gt, py_lt, py_le. intros Hle Hc.
  eapply xval_ltb_leb_trans; eassumption.
Qed.

Lemma filter_incl_impl {A} (f g : A -> bool) (l : list A) :
  (forall a, f a = true -> g a = true) ->
  incl (filter f l) (filter g l) /\
  (List.length (filter f l) <= List.length (filter g l))%nat.
Proof.
  intros Himp. split.
  - intros a Ha. apply filter_In in Ha as [Hin Hf].
    apply filter_In. split; [exact Hin|now apply Himp].
  - induction l as [|a l IH]; simpl; [lia|].
    destruct (f a) eqn:Hf.
    + rewrite (Himp a Hf). simpl. lia.
    + destruct (g a); simpl; lia.
Qed.

Lemma details_bounds income brackets details :
  Forall2 (detail_for income) brackets details ->
  map (fun d => (d_min d, d_max d)) details =
  map (fun b => (br_min b, br_max b)) brackets.
Proof.
  induction 1 as [|b d bs ds (Hmin & Hmax & _) _ IH]; simpl;
    [reflexivity|].
  now rewrite Hmin, Hmax, IH.
Qed.

Lemma compute_tax_details income data total details rate :
  compute_tax income data = inr (total, details, rate) ->
  Forall2 (detail_for income)
    (filter (contributes income) (tax_brackets data)) details.
Proof.
  unfold compute_tax.
  destruct (bracket_loop income (tax_brackets data) (PyInt 0, []))
    as [e|[total0 details0]] eqn:Hloop; cbn [bind]; [discriminate|].
  destruct (effective_rate_of total0 income); cbn [bind]; [discriminate|].
  intros [= _ <- _].
  apply bracket_loop_details in Hloop as (added & -> & Hall). exact Hall.
Qed.

(** X8.  Raising the income never removes an entry from the breakdown:
    every bracket that has an entry for the smaller income has one for the
    larger income, so the breakdown is at least as long. *)
Theorem breakdown_grows_with_income i1 i2 data t1 d1 r1 t2 d2 r2 :
  py_le i1 i2 = true ->
  compute_tax i1 data = inr (t1, d1, r1) ->
  compute_tax i2 data = inr (t2, d2, r2) ->
  incl (map (fun d => (d_min d, d_max d)) d1)
       (map (fun d => (d_min d, d_max d)) d2) /\
  (List.length d1 <= List.length d2)%nat.
Proof.
  intros Hle E1 E2.
  pose proof (compute_tax_details i1 data t1 d1 r1 E1) as F1.
  pose proof (compute_tax_details i2 data t2 d2 r2 E2) as F2.
  destruct (filter_incl_impl (contributes i1) (contributes i2)
              (tax_brackets data) (fun b => contributes_le i1 i2 b Hle))
    as [Hincl Hlen].
  split.
  - rewrite (details_bounds _ _ _ F1), (details_bounds _ _ _ F2).
    now apply incl_map.
  - rewrite <- (Forall2_length F1), <- (Forall2_length F2). exact Hlen.
Qed.

Lemma breakdown_grows_with_income_witness :
  let d1 := [ {| d_min := PyInt 0; d_max := Some (PyInt 50197);
                 d_tax_paid := PyFloat (B64.dec 1 2) |} ] in
  let d2 := [ {| d_min := PyInt 0; d_max := Some (PyInt 50197);
                 d_tax_paid := PyFloat (B64.dec 752955 2) |};
              {| d_min := PyInt 50197; d_max := None;
                 d_tax_paid := PyFloat (B64.dec 189606 1) |} ] in
  incl (map (fun d => (d_min d, d_max d)) d1)
       (map (fun d => (d_min d, d_max d)) d2) /\
  (List.length d1 <= List.length d2)%nat.
Proof.
  intros d1 d2.
  apply (breakdown_grows_with_income (PyFloat (B64.dec 4 2))
           (PyFloat (B64.dec 145000 0)) test_brackets
           (PyFloat (B64.dec 1 2)) d1 (PyFloat (B64.dec 15 0))
           (PyFloat (B64.dec 2649015 2)) d2 (PyFloat (B64.dec 1827 2)));
    vm_compute; reflexivity.
Defined.

(** X9.  Every entry of the breakdown belongs to a bracket whose lower bound
    the income exceeds. *)
Theorem breakdown_entries_below_income income data total details rate :
  compute_tax income data = inr (total, details, rate) ->
  Forall (fun d => py_gt income (d_min d) = true) details.
Proof.
  intros E. pose proof (compute_tax_details income data total details rate E)
    as F.
  remember (filter (contributes income) (tax_brackets data)) as entered
    eqn:Hent.
  assert (Hall : Forall (fun b => contributes income b = true) entered).
  { subst entered. apply Forall_forall. intros b Hb.
    now apply filter_In in Hb. }
  clear Hent E. revert Hall.
  induction F as [|b d bs ds (Hmin & _) _ IH]; intros Hall; [constructor|].
  inversion Hall as [|? ? Hb Hbs]; subst. constructor.
  - rewrite Hmin. exact Hb.
  - exact (IH Hbs).
Qed.

Lemma breakdown_entries_below_income_witness :
  Forall (fun d => py_gt (PyFloat (B64.dec 145000 0)) (d_min d) = true)
    [ {| d_min := PyInt 0; d_max := Some (PyInt 50197);
         d_tax_paid := PyFloat (B64.dec 752955 2) |};
      {| d_min := PyInt 50197; d_max := None;
         d_tax_paid := PyFloat (B64.dec 189606 1) |} ].
Proof.
  apply (breakdown_entries_below_income (PyFloat (B64.dec 145000 0))
           test_brackets (PyFloat (B64.dec 2649015 2)) _
           (PyFloat (B64.dec 1827 2))).
  vm_compute. reflexivity.
Defined.

(** ** Sign of the total *)

Lemma finite_float_le_refl f :
  B64.finite_float f = true -> py_le (PyFloat f) (PyFloat f) = true.
Proof.
  intros Hf. apply finite_float_is_finite in Hf.
  unfold py_le. cbn [val]. rewrite (finite_val f Hf).
  apply xval_leb_fin, Qle_refl.
Qed.

(** X10.  For a table of plausible brackets and a finite income,
    [compute_tax] returns and the total is not negative. *)
Theorem total_tax_nonnegative data income :
  forallb plausible_bracket (tax_brackets data) = true ->
  B64.finite_float income = true ->
  exists total details rate,
    compute_tax (PyFloat income) data = inr (total, details, rate) /\
    py_le (PyInt 0) total = true.
Proof.
  intros Hall Hfin.
  assert (V0 : total_view (PyInt 0) (S754_zero false))
    by (split; [left; now split|exact I]).
  destruct (bracket_loop_mono income income (finite_float_le_refl income Hfin)
              Hfin (tax_brackets data) Hall
              (PyInt 0) [] (S754_zero false) (PyInt 0) [] (S754_zero false)
              V0 V0 eq_refl)
    as (t1 & d1 & g1 & t2 & d2 & g2 & E1 & _ & V1 & _ & _).
  destruct (effective_rate_returns t1 g1 income V1) as [r Er].
  exists (py_round2 t1), d1, r. split.
  - unfold compute_tax. rewrite E1. cbn [bind]. rewrite Er. reflexivity.
  - apply (rounded_total_le (PyInt 0) (S754_zero false) t1 g1 V0 V1).
    apply (nonneg_grid_nonneg g1 (proj2 V1)).
Qed.

Lemma total_tax_nonnegative_witness :
  exists total details rate,
    compute_tax (PyFloat (B64.dec 145000 0)) test_brackets =
      inr (total, details, rate) /\
    py_le (PyInt 0) total = true.
Proof.
  apply total_tax_nonnegative; vm_compute; reflexivity.
Defined.

(* ===================================================================== *)
(** * Further properties of the retry loop                                *)
(* ===================================================================== *)

Lemma app_two {A} (l : list A) (a b : A) (rest : list A) :
  ((l ++ [a]) ++ [b]) ++ rest = l ++ a :: b :: rest.
Proof. now rewrite <- !app_assoc. Qed.

(** X11.  When [k] transient failures are followed by a success within the
    permitted number of attempts, the loop returns the data of that
    response after exactly [k + 1] requests to the same URL, with a wait
    after each failure whose bound doubles each time: 1, 2, 4, ... *)
Theorem retry_recovers_with_doubling_waits cfg tax_year r sc :
  get_data (GetReturns r) = inr (json r) ->
  forall fails tries tr,
    forallb fails_transiently fails = true ->
    Z.of_nat (tries + List.length fails) < tax_api_max_retries cfg ->
    on_exception cfg tax_year tries (fails ++ GetReturns r :: sc) tr =
    Some (inr (json r), sc,
          tr ++ backoff_trace (url_of cfg tax_year) tries (List.length fails)
             ++ [EvGet (url_of cfg tax_year)]).
Proof.
  intros Hok. induction fails as [|u fails IH]; intros tries tr Hall Hmax.
  - cbn [app on_exception List.length backoff_trace]. now rewrite Hok.
  - cbn [forallb] in Hall. apply andb_true_iff in Hall as [Hu Hall].
    unfold fails_transiently in Hu.
    destruct (get_data u) as [e|v] eqn:Hfail; [|discriminate].
    cbn [app]. rewrite (on_exception_failure cfg tax_year tries u _ tr e Hfail).
    rewrite (transient_giveup e Hu). cbn [List.length] in Hmax.
    destruct (Z.eqb_spec (Z.of_nat (S tries)) (tax_api_max_retries cfg));
      [lia|].
    cbn [negb orb]. rewrite IH by (assumption || lia).
    cbn [List.length backoff_trace]. now rewrite app_two.
Qed.

Lemma retry_recovers_with_doubling_waits_witness :
  on_exception example_config 2021 0
    ([GetTimeout; GetReturns (failing_response 502)] ++
     GetReturns (ok_response single_bracket) :: [GetConnectionError]) [] =
  Some (inr single_bracket, [GetConnectionError],
        [] ++ backoff_trace (url_of example_config 2021) 0 2
           ++ [EvGet (url_of example_config 2021)]).
Proof.
  apply (retry_recovers_with_doubling_waits example_config 2021
           (ok_response single_bracket) [GetConnectionError] eq_refl
           [GetTimeout; GetReturns (failing_response 502)] 0%nat []).
  - reflexivity.
  - simpl. lia.
Defined.



Lemma requests_sent_app tr1 tr2 :
  requests_sent (tr1 ++ tr2) = (requests_sent tr1 + requests_sent tr2)%nat.
Proof.
  unfold requests_sent. now rewrite filter_app, length_app.
Qed.

Lemma on_exception_requests cfg tax_year :
  forall sc tries tr r sc' tr',
    on_exception cfg tax_year tries sc tr = Some (r, sc', tr') ->
    Z.of_nat tries < tax_api_max_retries cfg ->
    Z.of_nat (requests_sent tr') - Z.of_nat (requests_sent tr)
      <= tax_api_max_retries cfg - Z.of_nat tries.
Proof.
  induction sc as [|u sc IH]; intros tries tr r sc' tr'; [discriminate|].
  cbn [on_exception].
  assert (Hone : requests_sent (tr ++ [EvGet (url_of cfg tax_year)]) =
                 S (requests_sent tr))
    by (rewrite requests_sent_app;
        change (requests_sent [EvGet (url_of cfg tax_year)]) with 1%nat;
        lia).
  destruct (get_data u) as [e|v].
  - destruct (is_request_exception e).
    + destruct (giveup e || (Z.of_nat (S tries) =? tax_api_max_retries cfg))
        eqn:Hstop.
      * intros [= _ _ <-] Hlt. rewrite Hone. lia.
      * intros Hrec Hlt. apply orb_false_iff in Hstop as [_ Hne].
        apply Z.eqb_neq in Hne. apply IH in Hrec; [|lia].
        rewrite requests_sent_app, Hone in Hrec.
        change (requests_sent [EvSleep (expo (pred (S tries)))]) with 0%nat
          in Hrec.
        lia.
    + intros [= _ _ <-] Hlt. rewrite Hone. lia.
  - intros [= _ _ <-] Hlt. rewrite Hone. lia.
Qed.

(** X13.  With a positive limit, one call of [fetch_tax_data] sends at most
    [tax_api_max_retries] requests, whatever the upstream service does. *)
Theorem fetch_sends_at_most_max_retries cfg tax_year w r w' :
  1 <= tax_api_max_retries cfg ->
  fetch_tax_data cfg tax_year w = Some (r, w') ->
  Z.of_nat (requests_sent (trace w')) <=
  Z.of_nat (requests_sent (trace w)) + tax_api_max_retries cfg.
Proof.
  intros Hmax. unfold fetch_tax_data.
  destruct (lru_getitem tax_year (cache w)) as [[v c]|].
  - intros [= _ <-]. cbn [trace]. lia.
  - destruct (on_exception cfg tax_year 0 (script w) (trace w))
      as [[[res sc] tr]|] eqn:Hloop; [|discriminate].
    apply on_exception_requests in Hloop; [|simpl; lia].
    change (Z.of_nat 0) with 0 in Hloop.
    destruct res as [e|v]; intros [= _ <-]; cbn [trace]; lia.
Qed.

Lemma fetch_sends_at_most_max_retries_witness :
  Z.of_nat (requests_sent
              [EvGet (url_of example_config 2021); EvSleep 1;
               EvGet (url_of example_config 2021); EvSleep 2;
               EvGet (url_of example_config 2021)]) <=
  Z.of_nat (requests_sent []) + tax_api_max_retries example_config.
Proof.
  apply (fetch_sends_at_most_max_retries example_config 2021
           (fresh_world [GetTimeout; GetTimeout; GetTimeout; GetTimeout])
           (inl Timeout)
           {| cache := []; script := [GetTimeout];
              trace := [EvGet (url_of example_config 2021); EvSleep 1;
                        EvGet (url_of example_config 2021); EvSleep 2;
                        EvGet (url_of example_config 2021)] |}).
  - simpl. lia.
  - vm_compute. reflexivity.
Defined.



(* ===================================================================== *)
(** * Further properties of the cache                                     *)
(* ===================================================================== *)

Lemma lru_lookup_none_keys k c :
  lru_lookup k c = None <-> ~ In k (lru_keys c).
Proof.
  unfold lru_lookup, lru_keys.
  induction c as [|[k0 v] c IH]; simpl; [tauto|].
  destruct (Z.eqb_spec k0 k) as [->|Hne]; simpl.
  - split; [discriminate|]. intros H. exfalso. apply H. now left.
  - rewrite IH. tauto.
Qed.

Lemma lru_remove_absent k c : lru_lookup k c = None -> lru_remove k c = c.
Proof.
  unfold lru_lookup, lru_remove.
  induction c as [|[k0 v] c IH]; simpl; [reflexivity|].
  destruct (Z.eqb_spec k0 k) as [->|Hne]; simpl; [discriminate|].
  intros H. now rewrite IH.
Qed.

Lemma lru_keys_remove k c x :
  In x (lru_keys (lru_remove k c)) <-> In x (lru_keys c) /\ x <> k.
Proof.
  unfold lru_keys, lru_remove. rewrite !in_map_iff. split.
  - intros ([k0 v] & <- & Hin). apply filter_In in Hin as [Hin Hne].
    simpl in *. apply negb_true_iff, Z.eqb_neq in Hne.
    split; [|exact Hne]. exists (k0, v). now split.
  - intros [([k0 v] & <- & Hin) Hne]. exists (k0, v). split; [reflexivity|].
    apply filter_In. split; [exact Hin|]. simpl.
    now apply negb_true_iff, Z.eqb_neq.
Qed.

Lemma lru_keys_remove_nodup k c :
  NoDup (lru_keys c) -> NoDup (lru_keys (lru_remove k c)).
Proof.
  unfold lru_keys, lru_remove.
  induction c as [|[k0 v] c IH]; simpl; [constructor|].
  intros Hnd. apply NoDup_cons_iff in Hnd as [Hnot Hnd].
  destruct (negb (k0 =? k)); simpl; [|now apply IH].
  constructor; [|now apply IH].
  intros Hin. apply Hnot.
  apply (lru_keys_remove k c k0) in Hin. exact (proj1 Hin).
Qed.

Lemma lru_keys_touch_nodup k v c :
  NoDup (lru_keys c) -> NoDup (lru_keys (lru_remove k c ++ [(k, v)])).
Proof.
  intros Hnd. unfold lru_keys. rewrite map_app. apply NoDup_app.
  - now apply lru_keys_remove_nodup.
  - repeat constructor. intros [].
  - intros x Hx [<-|[]]. apply lru_keys_remove in Hx. now destruct Hx.
Qed.

Lemma lru_keys_skipn_nodup n c :
  NoDup (lru_keys c) -> NoDup (lru_keys (skipn n c)).
Proof.
  unfold lru_keys. rewrite <- skipn_map. intros Hnd.
  rewrite <- (firstn_skipn n (map fst c)) in Hnd.
  now apply NoDup_app_remove_l in Hnd.
Qed.

Lemma lru_remove_shorter k c v :
  lru_lookup k c = Some v ->
  (List.length (lru_remove k c) < List.length c)%nat.
Proof.
  unfold lru_lookup, lru_remove.
  induction c as [|[k0 v0] c IH]; simpl; [discriminate|].
  destruct (Z.eqb_spec k0 k) as [->|Hne]; simpl.
  - intros _.
    pose proof (filter_length_le (fun p => negb (fst p =? k)) c). lia.
  - intros H. apply IH in H. lia.
Qed.

(** What a call that misses the cache and succeeds leaves in the cache. *)
Lemma fetch_miss_success cfg tax_year w data w' :
  lru_lookup tax_year (cache w) = None ->
  fetch_tax_data cfg tax_year w = Some (inr data, w') ->
  cache w' =
  if cache_max_size cfg <? 1 then cache w
  else skipn (Z.to_nat (Z.of_nat (List.length (cache w)) + 1
                        - cache_max_size cfg)) (cache w)
       ++ [(tax_year, data)].
Proof.
  intros Hmiss. unfold fetch_tax_data, lru_getitem. rewrite Hmiss.
  destruct (on_exception cfg tax_year 0 (script w) (trace w))
    as [[[[e|v] sc] tr]|]; try discriminate.
  intros [= <- <-]. cbn [cache]. unfold lru_setitem.
  destruct (cache_max_size cfg <? 1); [reflexivity|].
  rewrite Hmiss. rewrite lru_remove_absent; [reflexivity|].
  apply lru_lookup_none_keys. intros Hin.
  apply lru_lookup_none_keys in Hmiss. apply Hmiss.
  unfold lru_keys in *. rewrite <- skipn_map in Hin.
  rewrite <- (firstn_skipn (Z.to_nat (Z.of_nat (List.length (cache w)) + 1
                                      - cache_max_size cfg))
                (map fst (cache w))).
  apply in_or_app. now right.
Qed.

Lemma fetch_cache_cases cfg tax_year w r w' :
  fetch_tax_data cfg tax_year w = Some (r, w') ->
  cache w' = cache w \/
  (exists v, lru_lookup tax_year (cache w) = Some v /\
             cache w' = lru_remove tax_year (cache w) ++ [(tax_year, v)]) \/
  (exists v, lru_lookup tax_year (cache w) = None /\ r = inr v /\
             1 <= cache_max_size cfg /\
             cache w' =
             skipn (Z.to_nat (Z.of_nat (List.length (cache w)) + 1
                              - cache_max_size cfg)) (cache w)
             ++ [(tax_year, v)]).
Proof.
  intros Hfetch.
  destruct (lru_lookup tax_year (cache w)) as [v|] eqn:Hlook.
  - right. left. exists v. split; [reflexivity|].
    rewrite (fetch_hit cfg tax_year w v Hlook) in Hfetch.
    now injection Hfetch as _ <-.
  - destruct r as [e|v].
    + left. unfold fetch_tax_data, lru_getitem in Hfetch.
      rewrite Hlook in Hfetch.
      destruct (on_exception cfg tax_year 0 (script w) (trace w))
        as [[[[e'|v'] sc] tr]|]; try discriminate.
      now injection Hfetch as _ <-.
    + pose proof (fetch_miss_success cfg tax_year w v w' Hlook Hfetch) as Hc.
      destruct (Z.ltb_spec (cache_max_size cfg) 1); [now left|].
      right. right. exists v. now repeat split.
Qed.

(** X15.  The cache stays well formed and within its capacity: if its keys
    are distinct and their number does not exceed [cache_max_size] before a
    call of [fetch_tax_data], the same holds after it, whatever the call
    returns. *)
Theorem fetch_keeps_cache_within_capacity cfg tax_year w r w' :
  NoDup (lru_keys (cache w)) ->
  Z.of_nat (List.length (cache w)) <= cache_max_size cfg ->
  fetch_tax_data cfg tax_year w = Some (r, w') ->
  NoDup (lru_keys (cache w')) /\
  Z.of_nat (List.length (cache w')) <= cache_max_size cfg.
Proof.
  intros Hnd Hlen Hfetch.
  destruct (fetch_cache_cases cfg tax_year w r w' Hfetch)
    as [->|[(v & Hlook & ->)|(v & Hlook & _ & Hmax & ->)]].
  - now split.
  - split; [now apply lru_keys_touch_nodup|].
    pose proof (lru_remove_shorter tax_year (cache w) v Hlook).
    rewrite length_app. simpl. lia.
  - split.
    + unfold lru_keys. rewrite map_app. apply NoDup_app.
      * now apply lru_keys_skipn_nodup.
      * repeat constructor. intros [].
      * intros x Hx [<-|[]]. apply lru_lookup_none_keys in Hlook.
        apply Hlook. unfold lru_keys in *. rewrite <- skipn_map in Hx.
        rewrite <- (firstn_skipn
                      (Z.to_nat (Z.of_nat (List.length (cache w)) + 1
                                 - cache_max_size cfg))
                      (map fst (cache w))).
        apply in_or_app. now right.
    + rewrite length_app, length_skipn. simpl. lia.
Qed.

Lemma fetch_keeps_cache_within_capacity_witness :
  NoDup (lru_keys [(2020, test_brackets); (2021, single_bracket)]) /\
  Z.of_nat (List.length [(2020, test_brackets); (2021, single_bracket)])
  <= 2.
Proof.
  apply (fetch_keeps_cache_within_capacity
           {| cache_max_size := 2; supported_tax_years := [2021];
              tax_api_url := "u"; tax_api_max_retries := 3 |}
           2021
           {| cache := [(2019, single_bracket); (2020, test_brackets)];
              script := [GetReturns (ok_response single_bracket)];
              trace := [] |}
           (inr single_bracket)
           {| cache := [(2020, test_brackets); (2021, single_bracket)];
              script := [];
              trace := [EvGet "u/2021"] |}).
  - repeat constructor; simpl; intuition discriminate.
  - simpl. lia.
  - vm_compute. reflexivity.
Defined.

Lemma fetch_evicts_step cfg tax_year w data w' :
  1 <= cache_max_size cfg ->
  Z.of_nat (List.length (cache w)) <= cache_max_size cfg ->
  lru_lookup tax_year (cache w) = None ->
  fetch_tax_data cfg tax_year w = Some (inr data, w') ->
  cache w' =
  (if Z.of_nat (List.length (cache w)) <? cache_max_size cfg
   then cache w else tl (cache w)) ++ [(tax_year, data)].
Proof.
  intros Hmax Hlen Hmiss Hfetch.
  rewrite (fetch_miss_success cfg tax_year w data w' Hmiss Hfetch).
  destruct (Z.ltb_spec (cache_max_size cfg) 1); [lia|].
  destruct (Z.ltb_spec (Z.of_nat (List.length (cache w)))
              (cache_max_size cfg)).
  - replace (Z.to_nat _) with 0%nat by lia. reflexivity.
  - replace (Z.to_nat _) with 1%nat by lia. now destruct (cache w).
Qed.

(** X16.  Eviction follows the order of use.  When a year that is not in
    the cache is fetched successfully, it becomes the most recently used
    entry; the other entries keep their data and their order, except that
    the least recently used one is dropped if the cache was full. *)
Theorem fetch_evicts_least_recently_used cfg tax_year w data w' :
  1 <= cache_max_size cfg ->
  Z.of_nat (List.length (cache w)) <= cache_max_size cfg ->
  lru_lookup tax_year (cache w) = None ->
  fetch_tax_data cfg tax_year w = Some (inr data, w') ->
  cache w' =
  (if Z.of_nat (List.length (cache w)) <? cache_max_size cfg
   then cache w else tl (cache w)) ++ [(tax_year, data)].
Proof. exact (fetch_evicts_step cfg tax_year w data w'). Qed.

Lemma fetch_evicts_least_recently_used_witness :
  [(2020, test_brackets); (2021, single_bracket)] =
  (if Z.of_nat (List.length [(2019, single_bracket); (2020, test_brackets)])
      <? 2
   then [(2019, single_bracket); (2020, test_brackets)]
   else tl [(2019, single_bracket); (2020, test_brackets)])
  ++ [(2021, single_bracket)].
Proof.
  apply (fetch_evicts_least_recently_used
           {| cache_max_size := 2; supported_tax_years := [2021];
              tax_api_url := "u"; tax_api_max_retries := 3 |}
           2021
           {| cache := [(2019, single_bracket); (2020, test_brackets)];
              script := [GetReturns (ok_response single_bracket)];
              trace := [] |}
           single_bracket
           {| cache := [(2020, test_brackets); (2021, single_bracket)];
              script := [];
              trace := [EvGet "u/2021"] |}).
  - simpl. lia.
  - simpl. lia.
  - reflexivity.
  - vm_compute. reflexivity.
Defined.

(** X17.  A year that has just been served from the cache is not the next
    one to be evicted: with a capacity of at least 2, it is still cached,
    with the same data, after the next successful fetch of another year. *)
Theorem recently_served_year_survives cfg y1 y2 w r1 w1 v1 data w2 :
  2 <= cache_max_size cfg ->
  Z.of_nat (List.length (cache w)) <= cache_max_size cfg ->
  lru_lookup y1 (cache w) = Some v1 ->
  fetch_tax_data cfg y1 w = Some (r1, w1) ->
  lru_lookup y2 (cache w1) = None ->
  fetch_tax_data cfg y2 w1 = Some (inr data, w2) ->
  lru_lookup y1 (cache w2) = Some v1.
Proof.
  intros Hmax Hlen Hhit Hf1 Hmiss Hf2.
  rewrite (fetch_hit cfg y1 w v1 Hhit) in Hf1. injection Hf1 as _ <-.
  cbn [cache] in *.
  pose proof (lru_remove_shorter y1 (cache w) v1 Hhit) as Hshort.
  assert (Hlen1 : Z.of_nat (List.length (lru_remove y1 (cache w) ++ [(y1, v1)]))
                  <= cache_max_size cfg)
    by (rewrite length_app; simpl; lia).
  rewrite (fetch_evicts_step cfg y2
             {| cache := lru_remove y1 (cache w) ++ [(y1, v1)];
                script := script w; trace := trace w |}
             data w2 ltac:(lia) Hlen1 Hmiss Hf2).
  assert (Hne : y2 <> y1).
  { intros ->. apply lru_lookup_none_keys in Hmiss. apply Hmiss.
    unfold lru_keys. rewrite map_app. apply in_or_app. right. now left. }
  assert (Hend : forall l, ~ In y1 (lru_keys l) ->
                 lru_lookup y1 ((l ++ [(y1, v1)]) ++ [(y2, data)]) = Some v1).
  { intros l Hl. apply lru_lookup_none_keys in Hl.
    unfold lru_lookup in *. rewrite <- app_assoc, find_app.
    destruct (find (fun p => fst p =? y1) l); [discriminate|].
    simpl. now rewrite Z.eqb_refl. }
  cbn [cache].
  destruct (Z.of_nat (List.length (lru_remove y1 (cache w) ++ [(y1, v1)]))
            <? cache_max_size cfg) eqn:Hfull.
  - apply Hend. intros Hin. apply lru_keys_remove in Hin. now destruct Hin.
  - apply Z.ltb_ge in Hfull. rewrite length_app in Hfull. simpl in Hfull.
    destruct (lru_remove y1 (cache w)) as [|p rest] eqn:Hrem;
      [simpl in Hfull; lia|].
    cbn [app tl]. apply Hend. intros Hin.
    assert (Hin' : In y1 (lru_keys (lru_remove y1 (cache w))))
      by (rewrite Hrem; unfold lru_keys; simpl; now right).
    apply lru_keys_remove in Hin'. now destruct Hin'.
Qed.


Lemma recently_served_year_survives_witness :
  lru_lookup 2019 [(2019, single_bracket); (2021, single_bracket)] =
  Some single_bracket.
Proof.
  apply (recently_served_year_survives
           {| cache_max_size := 2; supported_tax_years := [2021];
              tax_api_url := "u"; tax_api_max_retries := 3 |}
           2019 2021
           {| cache := [(2019, single_bracket); (2020, test_brackets)];
              script := [GetReturns (ok_response single_bracket)];
              trace := [] |}
           (inr single_bracket)
           {| cache := [(2020, test_brackets); (2019, single_bracket)];
              script := [GetReturns (ok_response single_bracket)];
              trace := [] |}
           single_bracket single_bracket
           {| cache := [(2019, single_bracket); (2021, single_bracket)];
              script := []; trace := [EvGet "u/2021"] |}).
  - simpl. lia.
  - simpl. lia.
  - reflexivity.
  - vm_compute. reflexivity.
  - reflexivity.
  - vm_compute. reflexivity.
Defined.

Lemma lru_lookup_skipn k v n c :
  NoDup (lru_keys c) ->
  lru_lookup k (skipn n c) = Some v -> lru_lookup k c = Some v.
Proof.
  revert c. induction n as [|n IH]; intros c Hnd; [now simpl|].
  destruct c as [|[k0 v0] c]; [now simpl|].
  cbn [skipn]. intros Hlook.
  unfold lru_keys in Hnd. simpl in Hnd.
  apply NoDup_cons_iff in Hnd as [Hnot Hnd].
  pose proof (IH c Hnd Hlook) as Hc.
  unfold lru_lookup. simpl.
  destruct (Z.eqb_spec k0 k) as [->|Hne]; [|exact Hc].
  exfalso. apply Hnot.
  destruct (lru_lookup k c) eqn:E; [|discriminate].
  destruct (in_dec Z.eq_dec k (map fst c)) as [Hin|Hout]; [exact Hin|].
  apply lru_lookup_none_keys in Hout. congruence.
Qed.

Lemma lru_lookup_snoc_other k y v c :
  k <> y -> lru_lookup k (c ++ [(y, v)]) = lru_lookup k c.
Proof.
  intros Hne. unfold lru_lookup. rewrite find_app.
  destruct (find (fun p => fst p =? k) c); [reflexivity|].
  simpl. destruct (Z.eqb_spec y k); [congruence|reflexivity].
Qed.

Lemma lru_lookup_snoc_same y v c :
  lru_lookup y c = None -> lru_lookup y (c ++ [(y, v)]) = Some v.
Proof.
  intros Hnone. unfold lru_lookup in *. rewrite find_app.
  destruct (find (fun p => fst p =? y) c); [discriminate|].
  simpl. now rewrite Z.eqb_refl.
Qed.

(** X18.  A call for one year never alters what is cached for another
    year: data found afterwards under another key was there before,
    unchanged.  (The other year may have been evicted; it is never
    rewritten.) *)
Theorem fetch_leaves_other_years_unaltered cfg tax_year w r w' k v :
  NoDup (lru_keys (cache w)) ->
  k <> tax_year ->
  fetch_tax_data cfg tax_year w = Some (r, w') ->
  lru_lookup k (cache w') = Some v ->
  lru_lookup k (cache w) = Some v.
Proof.
  intros Hnd Hne Hfetch.
  destruct (fetch_cache_cases cfg tax_year w r w' Hfetch)
    as [->|[(v0 & Hlook & ->)|(v0 & Hlook & _ & Hmax & ->)]].
  - tauto.
  - now rewrite (lru_lookup_touch tax_year v0 (cache w) k Hlook).
  - rewrite (lru_lookup_snoc_other k tax_year v0 _ Hne).
    now apply lru_lookup_skipn.
Qed.

Lemma fetch_leaves_other_years_unaltered_witness :
  lru_lookup 2020 [(2019, single_bracket); (2020, test_brackets)] =
  Some test_brackets.
Proof.
  apply (fetch_leaves_other_years_unaltered
           {| cache_max_size := 2; supported_tax_years := [2021];
              tax_api_url := "u"; tax_api_max_retries := 3 |}
           2021
           {| cache := [(2019, single_bracket); (2020, test_brackets)];
              script := [GetReturns (ok_response single_bracket)];
              trace := [] |}
           (inr single_bracket)
           {| cache := [(2020, test_brackets); (2021, single_bracket)];
              script := []; trace := [EvGet "u/2021"] |}
           2020 test_brackets).
  - repeat constructor; simpl; intuition discriminate.
  - discriminate.
  - vm_compute. reflexivity.
  - reflexivity.
Defined.

Lemma fetch_success_cached cfg tax_year w data w' :
  1 <= cache_max_size cfg ->
  fetch_tax_data cfg tax_year w = Some (inr data, w') ->
  lru_lookup tax_year (cache w') = Some data.
Proof.
  intros Hmax Hfetch.
  destruct (lru_lookup tax_year (cache w)) as [v|] eqn:Hlook.
  - rewrite (fetch_hit cfg tax_year w v Hlook) in Hfetch.
    injection Hfetch as <- <-. cbn [cache].
    now rewrite (lru_lookup_touch tax_year v (cache w) tax_year Hlook).
  - rewrite (fetch_miss_success cfg tax_year w data w' Hlook Hfetch).
    destruct (Z.ltb_spec (cache_max_size cfg) 1); [lia|].
    apply lru_lookup_snoc_same. apply lru_lookup_none_keys. intros Hin.
    apply lru_lookup_none_keys in Hlook. apply Hlook.
    unfold lru_keys in *. rewrite <- skipn_map in Hin.
    rewrite <- (firstn_skipn
                  (Z.to_nat (Z.of_nat (List.length (cache w)) + 1
                             - cache_max_size cfg))
                  (map fst (cache w))).
    apply in_or_app. now right.
Qed.

(** X19.  Once [fetch_tax_data] has returned the data of a year (and the
    capacity is at least 1), the next call for that year returns the same
    data without consulting the upstream service, whatever that service
    would answer by then. *)
Theorem refetch_is_served_from_cache cfg tax_year w data w1 sc tr :
  1 <= cache_max_size cfg ->
  fetch_tax_data cfg tax_year w = Some (inr data, w1) ->
  fetch_tax_data cfg tax_year
    {| cache := cache w1; script := sc; trace := tr |} =
  Some (inr data,
        {| cache := lru_remove tax_year (cache w1) ++ [(tax_year, data)];
           script := sc; trace := tr |}).
Proof.
  intros Hmax Hfetch.
  pose proof (fetch_success_cached cfg tax_year w data w1 Hmax Hfetch) as Hc.
  exact (fetch_hit cfg tax_year
           {| cache := cache w1; script := sc; trace := tr |} data Hc).
Qed.

Lemma refetch_is_served_from_cache_witness :
  fetch_tax_data example_config 2021
    {| cache := cache {| cache := [(2021, single_bracket)]; script := [];
                         trace := [EvGet (url_of example_config 2021)] |};
       script := [GetConnectionError]; trace := [] |} =
  Some (inr single_bracket,
        {| cache := lru_remove 2021
                      (cache {| cache := [(2021, single_bracket)];
                                script := [];
                                trace := [EvGet (url_of example_config 2021)]
                             |})
                    ++ [(2021, single_bracket)];
           script := [GetConnectionError]; trace := [] |}).
Proof.
  apply (refetch_is_served_from_cache example_config 2021
           (fresh_world [GetReturns (ok_response single_bracket)])).
  - simpl. lia.
  - vm_compute. reflexivity.
Defined.

(** X20.  With a capacity below 1 nothing is ever stored: a call that
    misses the cache leaves it as it was, even when it succeeds. *)
Theorem no_capacity_no_caching cfg tax_year w r w' :
  cache_max_size cfg < 1 ->
  lru_lookup tax_year (cache w) = None ->
  fetch_tax_data cfg tax_year w = Some (r, w') ->
  cache w' = cache w.
Proof.
  intros Hcap Hmiss Hfetch.
  destruct (fetch_cache_cases cfg tax_year w r w' Hfetch)
    as [->|[(v & Hlook & _)|(v & _ & _ & Hmax & _)]];
    [reflexivity|congruence|lia].
Qed.

Lemma no_capacity_no_caching_witness :
  cache {| cache := []; script := []; trace := [EvGet "u/2021"] |} =
  cache (fresh_world [GetReturns (ok_response single_bracket)]).
Proof.
  apply (no_capacity_no_caching
           {| cache_max_size := 0; supported_tax_years := [2021];
              tax_api_url := "u"; tax_api_max_retries := 3 |}
           2021 (fresh_world [GetReturns (ok_response single_bracket)])
           (inr single_bracket)).
  - simpl. lia.
  - reflexivity.
  - vm_compute. reflexivity.
Defined.

(* ===================================================================== *)
(** * The handler and the cache together                                  *)
(* ===================================================================== *)

(** X21.  After a 200 answer for a year, a further request for that year
    (with any non-zero income) sends nothing to the upstream service: it is
    answered from the cache, with 200, or with 500 if the computation
    raises. *)
Theorem answered_year_needs_no_request cfg income1 income2 year w r1 w1 sc tr :
  1 <= cache_max_size cfg ->
  B64.is_zero income1 = false -> B64.is_zero income2 = false -> year <> 0 ->
  calculate_tax cfg (Some income1) (Some year) w = Some (r1, w1) ->
  status r1 = 200 ->
  exists r2 w2,
    calculate_tax cfg (Some income2) (Some year)
      {| cache := cache w1; script := sc; trace := tr |} = Some (r2, w2) /\
    script w2 = sc /\ trace w2 = tr /\
    (status r2 = 200 \/ status r2 = 500).
Proof.
  intros Hcap Hinc1 Hinc2 Hyear Hfirst Hok.
  rewrite (calculate_tax_validated cfg income1 year w Hinc1 Hyear) in Hfirst.
  rewrite (calculate_tax_validated cfg income2 year _ Hinc2 Hyear).
  destruct (existsb (Z.eqb year) (supported_tax_years cfg)); cbn [negb] in *.
  2:{ injection Hfirst as <- _. discriminate Hok. }
  destruct (fetch_tax_data cfg year w) as [[[e|data] w0]|] eqn:Hfetch;
    [injection Hfirst as <- _; discriminate Hok| |discriminate].
  assert (w0 = w1).
  { destruct (compute_tax (PyFloat income1) data) as [e|[[t d] rt]];
      now injection Hfirst as _ <-. }
  subst w0.
  rewrite (fetch_hit cfg year {| cache := cache w1; script := sc; trace := tr |}
             data (fetch_success_cached cfg year w data w1 Hcap Hfetch)).
  destruct (compute_tax (PyFloat income2) data) as [e|[[t d] rt]];
    eexists _, _; (split; [reflexivity|]); cbn; auto.
Qed.

Lemma answered_year_needs_no_request_witness :
  exists r2 w2,
    calculate_tax example_config (Some (B64.dec 50000 0)) (Some 2021)
      {| cache := cache {| cache := [(2021, test_brackets)]; script := [];
                           trace := [EvGet (url_of example_config 2021)] |};
         script := [GetTimeout]; trace := [] |} = Some (r2, w2) /\
    script w2 = [GetTimeout] /\ trace w2 = [] /\
    (status r2 = 200 \/ status r2 = 500).
Proof.
  apply (answered_year_needs_no_request example_config (B64.dec 145000 0)
           (B64.dec 50000 0) 2021
           (fresh_world [GetReturns (ok_response test_brackets)])
           {| status := 200;
              payload := TaxBody (PyFloat (B64.dec 2649015 2))
                [ {| d_min := PyInt 0; d_max := Some (PyInt 50197);
                     d_tax_paid := PyFloat (B64.dec 752955 2) |};
                  {| d_min := PyInt 50197; d_max := None;
                     d_tax_paid := PyFloat (B64.dec 189606 1) |} ]
                (PyFloat (B64.dec 1827 2)) |}).
  - simpl. lia.
  - reflexivity.
  - reflexivity.
  - discriminate.
  - vm_compute. reflexivity.
  - reflexivity.
Defined.

Lemma nan_enters_no_bracket brackets :
  Forall (fun b => contributes (PyFloat S754_nan) b = false) brackets.
Proof.
  apply Forall_forall. intros b _.
  unfold contributes, py_gt, py_lt. cbn [val float_val].
  now destruct (val (br_min b)).
Qed.

(** X22.  An income that is not a number passes the validation (NaN is not
    zero); for a supported year whose data can be fetched the answer is 200
    with a total of 0, an empty breakdown and a rate of 0. *)
Theorem nan_income_is_answered_with_zero cfg year w data w' :
  year <> 0 -> In year (supported_tax_years cfg) ->
  fetch_tax_data cfg year w = Some (inr data, w') ->
  calculate_tax cfg (Some S754_nan) (Some year) w =
  Some ({| status := 200; payload := TaxBody (PyInt 0) [] (PyInt 0) |}, w').
Proof.
  intros Hyear Hin Hfetch.
  etransitivity;
    [exact (calculate_tax_validated cfg S754_nan year w eq_refl Hyear)|].
  apply supported_existsb in Hin. rewrite Hin, Hfetch. cbn [negb].
  unfold compute_tax.
  rewrite (bracket_loop_none_contributes (PyFloat S754_nan)
             (tax_brackets data) (PyInt 0, [])
             (nan_enters_no_bracket (tax_brackets data))).
  reflexivity.
Qed.

Lemma nan_income_is_answered_with_zero_witness :
  calculate_tax example_config (Some S754_nan) (Some 2021)
    (fresh_world [GetReturns (ok_response test_brackets)]) =
  Some ({| status := 200; payload := TaxBody (PyInt 0) [] (PyInt 0) |},
        {| cache := [(2021, test_brackets)]; script := [];
           trace := [EvGet (url_of example_config 2021)] |}).
Proof.
  apply (nan_income_is_answered_with_zero example_config 2021
           (fresh_world [GetReturns (ok_response test_brackets)])
           test_brackets).
  - discriminate.
  - simpl. tauto.
  - vm_compute. reflexivity.
Defined.
